(** * rebuild_card_data: the CSV row transformer, keyword extraction and
      image index of [src/rebuild_card_data.py]

    Python [str] values are embedded as [string]; the character classes
    and case maps are those of Python on ASCII text (codes above 127 are
    kept as caseless symbols that are neither spaces nor digits).  A
    row of [csv.DictReader] of type [Dict[str, str]] is a
    [gmap string string]; [ValueError] is an explicit outcome. *)

From Stdlib Require Import Strings.String Strings.Ascii ZArith NArith List Lia.
From stdpp Require Import gmap strings list.

Open Scope string_scope.
Open Scope list_scope.

(** ** Characters *)

Module Char.

Definition code (c : ascii) : nat := nat_of_ascii c.

(** [str.isspace] on ASCII: TAB, LF, VT, FF, CR, the separators
    FS, GS, RS, US, and SPACE.  It is the class stripped by
    [str.strip()] and matched by the pattern [\s]. *)
Definition is_space (c : ascii) : bool :=
  let n := code c in
  (((9 <=? n) && (n <=? 13)) || ((28 <=? n) && (n <=? 32)))%nat.

(** The pattern [\d] on ASCII. *)
Definition is_digit (c : ascii) : bool :=
  let n := code c in ((48 <=? n) && (n <=? 57))%nat.

Definition is_upper (c : ascii) : bool :=
  let n := code c in ((65 <=? n) && (n <=? 90))%nat.

Definition is_lower (c : ascii) : bool :=
  let n := code c in ((97 <=? n) && (n <=? 122))%nat.

Definition lower (c : ascii) : ascii :=
  if is_upper c then ascii_of_nat (code c + 32) else c.

Definition upper (c : ascii) : ascii :=
  if is_lower c then ascii_of_nat (code c - 32) else c.

Definition digit_val (c : ascii) : option N :=
  if is_digit c then Some (N.of_nat (code c - 48)) else None.

End Char.

(** ** The [str] methods the program calls *)

Module Str.

Fixpoint lower (s : string) : string :=
  match s with
  | "" => ""
  | String c r => String (Char.lower c) (lower r)
  end.

Fixpoint upper (s : string) : string :=
  match s with
  | "" => ""
  | String c r => String (Char.upper c) (upper r)
  end.

(** [s.capitalize()]: first character upper-cased, the rest lower-cased. *)
Definition capitalize (s : string) : string :=
  match s with
  | "" => ""
  | String c r => String (Char.upper c) (lower r)
  end.

Fixpoint lstrip (s : string) : string :=
  match s with
  | "" => ""
  | String c r => if Char.is_space c then lstrip r else s
  end.

(** Drop trailing white space: a character is kept when it is not a
    space or when something is kept after it. *)
Fixpoint rstrip (s : string) : string :=
  match s with
  | "" => ""
  | String c r =>
      match rstrip r with
      | "" => if Char.is_space c then "" else String c ""
      | r' => String c r'
      end
  end.

(** [s.strip()] *)
Definition strip (s : string) : string := rstrip (lstrip s).

(** Truth value of a [str]: non-empty. *)
Definition truthy (s : string) : bool :=
  match s with "" => false | _ => true end.

(** [p] is a prefix of [s]: [s.startswith(p)]. *)
Fixpoint startswith (s p : string) : bool :=
  match p, s with
  | "", _ => true
  | String a p', String b s' => Ascii.eqb a b && startswith s' p'
  | _, "" => false
  end.

(** [sub in s] *)
Fixpoint contains (sub s : string) : bool :=
  startswith s sub ||
  match s with
  | "" => false
  | String _ r => contains sub r
  end.

(** [x in l] for a list of strings (comparison by [==]). *)
Definition mem (x : string) (l : list string) : bool :=
  existsb (String.eqb x) l.

(** [s.replace(c, '')] for a one-character [c]. *)
Fixpoint remove_char (c : ascii) (s : string) : string :=
  match s with
  | "" => ""
  | String a r =>
      if Ascii.eqb a c then remove_char c r else String a (remove_char c r)
  end.

(** [sep.join(l)] *)
Fixpoint join (sep : string) (l : list string) : string :=
  match l with
  | [] => ""
  | [x] => x
  | x :: r => x +:+ sep +:+ join sep r
  end.

(** [s.split(c)] for a one-character separator: always at least one
    piece. *)
Fixpoint split_go (c : ascii) (cur : string) (s : string) : list string :=
  match s with
  | "" => [String.rev cur]
  | String a r =>
      if Ascii.eqb a c then String.rev cur :: split_go c "" r
      else split_go c (String a cur) r
  end.
Definition split (c : ascii) (s : string) : list string := split_go c "" s.

(** Longest prefix of characters satisfying [p], and what follows. *)
Fixpoint span (p : ascii -> bool) (s : string) : string * string :=
  match s with
  | "" => ("", "")
  | String c r =>
      if p c then let '(a, b) := span p r in (String c a, b)
      else ("", s)
  end.

End Str.

(** ** The regular expressions of [extract_keywords] *)

Module Re.

(** Scanner state of [re.findall(r'\[([^\]]+)\]', text)]: outside a
    span, or inside one with the characters read since its '['
    (latest first). *)
Fixpoint findall_brackets_go (inside : option string) (s : string)
  : list string :=
  match s with
  | "" => []
  | String c r =>
      match inside with
      | None =>
          if Ascii.eqb c "[" then findall_brackets_go (Some "") r
          else findall_brackets_go None r
      | Some acc =>
          if Ascii.eqb c "]" then
            match acc with
            | "" => findall_brackets_go None r
            | _ => String.rev acc :: findall_brackets_go None r
            end
          else findall_brackets_go (Some (String c acc)) r
      end
  end.

(** The captured groups of every non-overlapping match of
    [\[([^\]]+)\]], left to right.  A match starts at a '[' and ends
    at the next ']' provided at least one character lies between;
    the class [[^\]]] also accepts '[' and newlines.  On "[]" the
    attempt at that '[' fails and the scan resumes after it. *)
Definition findall_brackets (text : string) : list string :=
  findall_brackets_go None text.

(** [re.sub(r'\s+\d+$', '', kw)] on a stripped [kw]: the leftmost
    match takes the whole run of digits that ends the string and the
    whole run of spaces before it, both non-empty; without such a
    suffix the string is unchanged. *)
Definition sub_num_suffix (kw : string) : string :=
  let '(ds, r1) := Str.span Char.is_digit (String.rev kw) in
  match ds with
  | "" => kw
  | _ =>
      let '(ws, r2) := Str.span Char.is_space r1 in
      match ws with
      | "" => kw
      | _ => String.rev r2
      end
  end.

(** Match the literal [kw] at the start of [s] ignoring case
    ([re.IGNORECASE]); the rest of [s] on success. *)
Fixpoint imatch_lit (kw s : string) : option string :=
  match kw, s with
  | "", _ => Some s
  | String a kw', String b s' =>
      if Ascii.eqb (Char.lower a) (Char.lower b) then imatch_lit kw' s'
      else None
  | _, "" => None
  end.

(** [(?:\s+\d+)?\]] at the start of [s].  The three classes are
    disjoint, so the greedy runs are the only way to match. *)
Definition match_num_close (s : string) : bool :=
  Str.startswith s "]" ||
  (let '(ws, r1) := Str.span Char.is_space s in
   let '(ds, r2) := Str.span Char.is_digit r1 in
   Str.truthy ws && Str.truthy ds && Str.startswith r2 "]").

(** The pattern [\[kw(?:\s+\d+)?\]|\(kw] anchored at the start of
    [s]; [kw] is a literal ([re.escape]). *)
Definition match_keyword_here (kw s : string) : bool :=
  match s with
  | String c r =>
      (Ascii.eqb c "[" &&
         match imatch_lit kw r with
         | Some r' => match_num_close r'
         | None => false
         end)
      || (Ascii.eqb c "(" &&
            match imatch_lit kw r with Some _ => true | None => false end)
  | "" => false
  end.

(** [re.search(pattern, text, re.IGNORECASE)] is not [None]. *)
Fixpoint search_keyword (kw text : string) : bool :=
  match_keyword_here kw text ||
  match text with
  | "" => false
  | String _ r => search_keyword kw r
  end.

End Re.

(** ** [extract_keywords] *)

Definition known_keywords : list string :=
  [ "Accelerate"; "Action"; "Reaction"; "Hidden"; "Vision"; "Legion";
    "Assault"; "Defender"; "Elusive"; "Fearsome"; "Mighty"; "Temporary";
    "Quick Attack"; "Overwhelm"; "Lifesteal"; "Barrier"; "Spellshield";
    "Regeneration"; "Tough"; "Challenger"; "Scout"; "Fury"; "Attune";
    "Deep"; "Ephemeral"; "Last Breath"; "Nexus Strike"; "Play"; "Strike";
    "Support"; "Vulnerable"; "Capture"; "Frostbite"; "Immobile"; "Recall";
    "Silence"; "Stun"; "Obliterate"; "Rally"; "Enlightened"; "Reputation";
    "Lurk"; "Predict"; "Invoke"; "Behold"; "Augment"; "Impact"; "Formidable";
    "Equipment"; "Attach"; "Hallowed"; "Evolve"; "Husk"; "Boon"; "Flow" ].

(** Body of [for match in bracket_matches]. *)
Definition bracket_step (keywords : list string) (m : string) : list string :=
  let kw := Str.strip m in
  let base_kw := Re.sub_num_suffix kw in
  if Str.truthy base_kw && negb (Str.mem base_kw keywords)
  then keywords ++ [kw]
  else keywords.

(** The first loop, from a given list of matches. *)
Definition bracket_loop (matches : list string) (keywords : list string)
  : list string :=
  fold_left bracket_step matches keywords.

(** The bracket scan: [keywords] after the first loop. *)
Definition bracket_scan (text : string) : list string :=
  bracket_loop (Re.findall_brackets text) [].

(** Body of [for kw in known_keywords]. *)
Definition known_step (text : string) (keywords : list string) (kw : string)
  : list string :=
  let text_lower := Str.lower text in
  if Str.contains (Str.lower kw) text_lower && negb (Str.mem kw keywords) then
    if Re.search_keyword kw text then
      if negb (Str.mem kw keywords) then keywords ++ [kw] else keywords
    else keywords
  else keywords.

(** The second loop over a list of candidate names. *)
Definition known_loop (text : string) (kws : list string)
  (keywords : list string) : list string :=
  fold_left (known_step text) kws keywords.

Definition extract_keywords (text : string) : list string :=
  known_loop text known_keywords (bracket_scan text).

(** ** Exceptions *)

Inductive exn : Type := ValueError.

(** Outcome of a Python expression that may raise. *)
Inductive result (A : Type) : Type :=
| Ok (a : A)
| Raise (e : exn).
Arguments Ok {A} a.
Arguments Raise {A} e.

Definition rbind {A B : Type} (m : result A) (k : A -> result B) : result B :=
  match m with
  | Ok a => k a
  | Raise e => Raise e
  end.

#[global] Instance result_ret : MRet result := fun A a => Ok a.
#[global] Instance result_bind : MBind result := fun A B k m => rbind m k.

(** [try: body  except ValueError: handler] *)
Definition try_except {A : Type} (body handler : result A) : result A :=
  match body with
  | Ok a => Ok a
  | Raise ValueError => handler
  end.

(** ** [float(str)] *)

(** The value denoted by a float literal: not-a-number, an infinity, or
    the decimal [(-1)^neg * mantissa * 10^exp10].  The rounding of a
    decimal to binary64 is left out. *)
Inductive pyfloat : Type :=
| FNan
| FInf (neg : bool)
| FDec (neg : bool) (mantissa : N) (exp10 : Z).

Definition is_finite (f : pyfloat) : bool :=
  match f with FDec _ _ _ => true | _ => false end.

Module Float.

(** The rest of a [digitpart] after its first digit:
    [(["_"] digit)*].  [acc] is the number read so far and [n] counts
    its digits. *)
Fixpoint digits_tail (acc : N) (n : nat) (s : string) : N * nat * string :=
  match s with
  | "" => (acc, n, s)
  | String c r =>
      match Char.digit_val c with
      | Some d => digits_tail (10 * acc + d) (S n) r
      | None =>
          if Ascii.eqb c "_" then
            match r with
            | String c2 r2 =>
                match Char.digit_val c2 with
                | Some d => digits_tail (10 * acc + d) (S n) r2
                | None => (acc, n, s)
                end
            | "" => (acc, n, s)
            end
          else (acc, n, s)
      end
  end.

(** [digitpart ::= digit (["_"] digit)*], continuing the number [acc]. *)
Definition digitpart (acc : N) (s : string) : option (N * nat * string) :=
  match s with
  | String c r =>
      match Char.digit_val c with
      | Some d => Some (digits_tail (10 * acc + d) 1 r)
      | None => None
      end
  | "" => None
  end.

(** [number ::= [digitpart] "." digitpart | digitpart ["."]]: the
    digits as one number, how many of them follow the point, and the
    rest of the input. *)
Definition number (s : string) : option (N * nat * string) :=
  match digitpart 0 s with
  | Some (m, _, r) =>
      match r with
      | String "." r' =>
          match digitpart m r' with
          | Some (m', k, r'') => Some (m', k, r'')
          | None => Some (m, 0, r')
          end
      | _ => Some (m, 0, r)
      end
  | None =>
      match s with
      | String "." r => digitpart 0 r
      | _ => None
      end
  end.

(** [[sign]]: whether it is a minus, and the rest. *)
Definition sign (s : string) : bool * string :=
  match s with
  | String "+" r => (false, r)
  | String "-" r => (true, r)
  | _ => (false, s)
  end.

(** [[exponent]] up to the end of the input, with
    [exponent ::= ("e" | "E") [sign] digitpart]. *)
Definition exponent (s : string) : option Z :=
  match s with
  | "" => Some 0%Z
  | String c r =>
      if Ascii.eqb c "e" || Ascii.eqb c "E" then
        let '(neg, r1) := sign r in
        match digitpart 0 r1 with
        | Some (e, _, "") =>
            Some (if neg then (- Z.of_N e)%Z else Z.of_N e)
        | _ => None
        end
      else None
  end.

(** [float(s)] for a [str]: surrounding white space is ignored, then
    [[sign] (floatnumber | infinity | nan)], the two words in any
    letter case.  Anything else raises [ValueError]. *)
Definition float (s : string) : result pyfloat :=
  let '(neg, body) := sign (Str.strip s) in
  let word := Str.lower body in
  if String.eqb word "inf" || String.eqb word "infinity" then Ok (FInf neg)
  else if String.eqb word "nan" then Ok FNan
  else
    match number body with
    | Some (m, k, r) =>
        match exponent r with
        | Some e => Ok (FDec neg m (e - Z.of_nat k))
        | None => Raise ValueError
        end
    | None => Raise ValueError
    end.

End Float.

(** ** Card records *)

(** [stats.power]: a string or a number. *)
Inductive power_value : Type :=
| PowerStr (s : string)
| PowerNum (f : pyfloat).

(** In [stats] the three keys are always there; [None] is Python's
    [None]. *)
Record Stats : Type := {
  energy : option pyfloat;
  might : option pyfloat;
  power : option power_value
}.

Record RulesText : Type := {
  raw : string;
  keywords : list string
}.

(** The [card_data] dictionary.  For [supertypes], [tags] and
    [image_url], [None] says that the key is not in the dictionary. *)
Record CardRecord : Type := {
  id : string;
  name : string;
  rarity : string;
  domain : string;
  type_line : string;
  stats : Stats;
  rules_text : RulesText;
  supertypes : option string;
  tags : option (list string);
  image_url : option string
}.

(** [card['image_url'] = url] *)
Definition set_image_url (card : CardRecord) (url : string) : CardRecord :=
  {| id := id card; name := name card; rarity := rarity card;
     domain := domain card; type_line := type_line card;
     stats := stats card; rules_text := rules_text card;
     supertypes := supertypes card; tags := tags card;
     image_url := Some url |}.

(** ** [parse_csv_row] *)

(** [row.get(key, '')] *)
Definition get (row : gmap string string) (key : string) : string :=
  default "" (row !! key).

(** [s not in ['', 'nan']] *)
Definition not_blank_nan (s : string) : bool := negb (Str.mem s [""; "nan"]).

(** [row.get(key, '').strip().capitalize() if row.get(key) else ''] *)
Definition domain_field (row : gmap string string) (key : string) : string :=
  match row !! key with
  | Some v => if Str.truthy v then Str.capitalize (Str.strip (get row key)) else ""
  | None => ""
  end.

(** Lines 28-34: the domain string from the two capitalized fields. *)
Definition build_domain (domain1 domain2 : string) : string :=
  let domains : list string := [] in
  let domains :=
    if Str.truthy domain1 && not_blank_nan (Str.lower domain1)
    then domains ++ [domain1] else domains in
  let domains :=
    if Str.truthy domain2 && not_blank_nan (Str.lower domain2)
    then domains ++ [domain2] else domains in
  match domains with
  | [] => "Colorless"
  | _ => Str.join ", " domains
  end.

(** [f'Subtype {i}'] for a one-digit [i]. *)
Definition subtype_key (i : nat) : string :=
  "Subtype " +:+ String (ascii_of_nat (48 + i)) "".

(** Body of [for i in range(1, 6)]. *)
Definition subtype_step (row : gmap string string) (subtypes : list string)
  (i : nat) : list string :=
  let subtype := Str.strip (get row (subtype_key i)) in
  if Str.truthy subtype && not_blank_nan (Str.lower subtype)
  then subtypes ++ [Str.lower subtype] else subtypes.

(** Lines 62-72, for [Energy] and for [Might]. *)
Definition parse_stat (field : string) : result (option pyfloat) :=
  try_except
    (if Str.truthy field && negb (Str.mem field [""; "-"])
     then f ← Float.float field; Ok (Some f)
     else Ok None)
    (Ok None).

(** Lines 74-84. *)
Definition parse_power (power : string) : result (option power_value) :=
  let power_val := None in
  if Str.truthy power && negb (Str.mem power [""; "-"]) then
    if String.eqb (Str.remove_char "C" (Str.upper power)) "" then
      Ok (Some (PowerStr (Str.upper power)))
    else
      try_except
        (f ← Float.float power; Ok (Some (PowerNum f)))
        (Ok (Some (PowerStr power)))
  else Ok power_val.

(** [[t.strip() for t in tags.split(',') if t.strip()]] *)
Definition split_tags (tags : string) : list string :=
  List.map Str.strip
    (List.filter (fun t => Str.truthy (Str.strip t)) (Str.split "," tags)).

(** [None] is the function's [return None]. *)
Definition parse_csv_row (row : gmap string string)
  : result (option CardRecord) :=
  let name := Str.strip (get row "Name") in
  if negb (Str.truthy name) then Ok None else
  let card_id := Str.strip (get row "Collector Number") in
  if negb (Str.truthy card_id) then Ok None else
  let domain1 := domain_field row "Domain 1" in
  let domain2 := domain_field row "Domain 2" in
  let domain_str := build_domain domain1 domain2 in
  let card_type := Str.lower (Str.strip (get row "types")) in
  let card_type := if negb (Str.truthy card_type) then "unit" else card_type in
  let subtypes := fold_left (subtype_step row) (seq 1 5) [] in
  let type_line :=
    match subtypes with
    | [] => card_type
    | _ => card_type +:+ " - " +:+ Str.join ", " subtypes
    end in
  let supertypes := Str.strip (get row "supertypes") in
  let energy := Str.strip (get row "Energy") in
  let might := Str.strip (get row "Might") in
  let power := Str.strip (get row "Power") in
  energy_val ← parse_stat energy;
  might_val ← parse_stat might;
  power_val ← parse_power power;
  let description := Str.strip (get row "Description") in
  let alt_text := Str.strip (get row "ALT TEXT") in
  let keywords := extract_keywords description in
  let tags := Str.strip (get row "Tags") in
  Ok (Some
    {| id := card_id;
       name := name;
       rarity := Str.lower (Str.strip (get row "Rarity"));
       domain := domain_str;
       type_line := type_line;
       stats := {| energy := energy_val; might := might_val;
                   power := power_val |};
       rules_text := {| raw := description; keywords := keywords |};
       supertypes :=
         if Str.truthy supertypes && not_blank_nan (Str.lower supertypes)
         then Some (Str.lower supertypes) else None;
       tags :=
         if Str.truthy tags && not_blank_nan (Str.lower tags)
         then Some (split_tags tags) else None;
       image_url := None |}).

(** ** [load_images] and the loop of [main] *)

Definition base_origin : string := "https://riftdecks.com".

(** Lines 177-178: make the URL absolute. *)
Definition absolute_url (image_url : string) : string :=
  if Str.startswith image_url "/" then base_origin +:+ image_url
  else image_url.

(** Body of [for row in reader] in [load_images]. *)
Definition load_images_step (images : gmap string string)
  (row : gmap string string) : gmap string string :=
  let name := Str.strip (get row "Name") in
  let image_url := Str.strip (get row "Card Image URL") in
  if Str.truthy name && Str.truthy image_url
  then <[name := absolute_url image_url]> images
  else images.

(** [load_images] on the rows read from the image CSV. *)
Definition load_images (rows : list (gmap string string))
  : gmap string string :=
  fold_left load_images_step rows ∅.

(** Lines 199-204: one row of the primary CSV. *)
Definition main_step (images : gmap string string) (cards : list CardRecord)
  (row : gmap string string) : result (list CardRecord) :=
  card ← parse_csv_row row;
  match card with
  | Some card =>
      let card :=
        match images !! name card with
        | Some url => set_image_url card url
        | None => card
        end in
      Ok (cards ++ [card])
  | None => Ok cards
  end.

Fixpoint main_loop (images : gmap string string)
  (rows : list (gmap string string)) (cards : list CardRecord)
  : result (list CardRecord) :=
  match rows with
  | [] => Ok cards
  | row :: rest =>
      cards ← main_step images cards row;
      main_loop images rest cards
  end.

(** The list [cards] that [main] serializes, from the rows of the image
    CSV and of the primary CSV. *)
Definition main (image_rows rows : list (gmap string string))
  : result (list CardRecord) :=
  main_loop (load_images image_rows) rows [].

(** ** The frequency tables of [main] *)

(** [s.split(sep)] for a non-empty separator [sep] of several
    characters: the pieces between the occurrences of [sep], found
    left to right without overlap.  [skip] counts the characters of an
    occurrence still to pass over; [cur] is the piece being read,
    latest character first. *)
Fixpoint split_sep_go (sep : string) (skip : nat) (cur : string) (s : string)
  : list string :=
  match s with
  | "" => [String.rev cur]
  | String c r =>
      match skip with
      | S k => split_sep_go sep k cur r
      | O =>
          if Str.startswith s sep
          then String.rev cur :: split_sep_go sep (String.length sep - 1) "" r
          else split_sep_go sep 0 (String c cur) r
      end
  end.

Definition split_sep (sep s : string) : list string :=
  split_sep_go sep 0 "" s.

(** [card.get('type_line', '').split(' - ')[0]]; the list of pieces is
    never empty. *)
Definition primary_type (card : CardRecord) : string :=
  match split_sep " - " (type_line card) with
  | t :: _ => t
  | [] => ""
  end.

(** [table[k] = table.get(k, 0) + 1] *)
Definition count_step (table : gmap string nat) (k : string)
  : gmap string nat :=
  <[k := default 0 (table !! k) + 1]> table.

(** Body of [for card in cards], lines 218-222, on the pair
    [(domains, types)]. *)
Definition tables_step (tables : gmap string nat * gmap string nat)
  (card : CardRecord) : gmap string nat * gmap string nat :=
  let '(domains, types) := tables in
  let d := domain card in
  let t := primary_type card in
  (count_step domains d, count_step types t).

(** The two dictionaries [domains] and [types] after the loop. *)
Definition tables (cards : list CardRecord)
  : gmap string nat * gmap string nat :=
  fold_left tables_step cards (∅, ∅).

(** ** The field coercions, as the specification words them *)

Module Spec.

(** Energy and Might: blank or "-" is absent; otherwise the parsed
    number, or absent when the parse fails. *)
Definition stat (field : string) : option pyfloat :=
  if String.eqb field "" || String.eqb field "-" then None
  else match Float.float field with
       | Ok f => Some f
       | Raise _ => None
       end.

Fixpoint all_chars (p : ascii -> bool) (s : string) : bool :=
  match s with
  | "" => true
  | String c r => p c && all_chars p r
  end.

(** One or more characters, all of them 'C'. *)
Definition all_C (s : string) : bool :=
  Str.truthy s && all_chars (Ascii.eqb "C") s.

(** Power: blank or "-" is absent; a run of 'C' in upper case is
    kept as that string; otherwise the parsed number, or the string
    itself when the parse fails. *)
Definition power (p : string) : option power_value :=
  if String.eqb p "" || String.eqb p "-" then None
  else if all_C (Str.upper p) then Some (PowerStr (Str.upper p))
  else match Float.float p with
       | Ok f => Some (PowerNum f)
       | Raise _ => Some (PowerStr p)
       end.

(** A domain field, trimmed and capitalized; empty or "nan" in any
    letter case is absent. *)
Definition present_domain (v : string) : option string :=
  let d := Str.capitalize (Str.strip v) in
  if String.eqb d "" || String.eqb (Str.lower d) "nan" then None
  else Some d.

(** The present domains joined with ", ", first field first, or
    "Colorless" when there is none. *)
Definition domain (v1 v2 : string) : string :=
  match present_domain v1, present_domain v2 with
  | Some a, Some b => a +:+ ", " +:+ b
  | Some a, None => a
  | None, Some b => b
  | None, None => "Colorless"
  end.

End Spec.

(** ** Predicates used in the statements *)

(** The entry [k] occurs at most once in [ks]. *)
Definition at_most_once (k : string) (ks : list string) : Prop :=
  count_occ string_dec ks k <= 1.

(** The bracket scan as the specification words it: the inner text of
    the span is the candidate, appended exactly when that very text is
    not yet in the list. *)
Definition appended_iff_text_absent (text : string) : Prop :=
  forall pre m post,
    Re.findall_brackets text = pre ++ m :: post ->
    let ks := bracket_loop pre [] in
    (~ In m ks -> bracket_loop (pre ++ [m]) [] = ks ++ [m]) /\
    (In m ks -> bracket_loop (pre ++ [m]) [] = ks).

Definition not_space (c : ascii) : bool := negb (Char.is_space c).

(** The row assigns [images[n]]. *)
Definition writes (row : gmap string string) (n : string) : Prop :=
  Str.strip (get row "Name") = n /\
  Str.strip (get row "Card Image URL") <> "".

(** What the loop of [main] establishes for each card: [image_url] is
    there exactly when the name is a key, with the URL found. *)
Definition image_joined (images : gmap string string) (card : CardRecord)
  : Prop :=
  image_url card = images !! name card.

(** ** Further predicates *)

(** The character [c] does not occur in [s]. *)
Definition lacks (c : ascii) (s : string) : bool :=
  Spec.all_chars (fun a => negb (Ascii.eqb a c)) s.

(** Non-empty and without surrounding white space. *)
Definition trimmed (s : string) : Prop := s <> "" /\ Str.strip s = s.

(** What a captured group of the bracket pattern looks like. *)
Definition bracket_match (m : string) : Prop :=
  m <> "" /\ lacks "]" m = true.

(** The span ['[' m ']'] lies in [s]. *)
Definition span_in (s m : string) : Prop :=
  exists a b, s = a +:+ "[" +:+ m +:+ "]" +:+ b.

(** [m] is finished by the first [']'] of [s], after the characters
    [acc] already read. *)
Definition span_closes (acc s m : string) : Prop :=
  exists x b, m = String.rev acc +:+ x /\ s = x +:+ "]" +:+ b.

(** The row passes both gates of [parse_csv_row]. *)
Definition kept (row : gmap string string) : bool :=
  Str.truthy (Str.strip (get row "Name")) &&
  Str.truthy (Str.strip (get row "Collector Number")).

(** Lines 202-203 of [main] on one card. *)
Definition attach_image (images : gmap string string) (card : CardRecord)
  : CardRecord :=
  match images !! name card with
  | Some url => set_image_url card url
  | None => card
  end.

(** The primary type of a row: lines 37-39. *)
Definition card_type_of (row : gmap string string) : string :=
  let card_type := Str.lower (Str.strip (get row "types")) in
  if negb (Str.truthy card_type) then "unit" else card_type.

(** What every entry of the index satisfies. *)
Definition index_entry (n u : string) : Prop :=
  trimmed n /\ u <> "" /\ Str.startswith u "/" = false.

(** ** Sample rows *)

Definition tagged_row : gmap string string :=
  list_to_map
    [ ("Name", "Scout"); ("Collector Number", "OGN-040");
      ("Tags", " Ionia, ,Elite ,") ].

Definition basic_row : gmap string string :=
  list_to_map
    [ ("Name", "Fury Rune"); ("Collector Number", "OGN-007");
      ("Rarity", " Common "); ("supertypes", "Basic") ].

Definition sample_row : gmap string string :=
  list_to_map
    [ ("Name", " Blazing Scorcher "); ("Collector Number", "OGN-001 ");
      ("Domain 1", "fire"); ("Domain 2", "water");
      ("Energy", "2"); ("Might", "abc"); ("Power", "CC");
      ("Description", "[Accelerate] (You may pay 1 as an additional cost.)") ].

Definition nameless_row : gmap string string :=
  list_to_map [ ("Name", "  "); ("Collector Number", "OGN-002") ].

Definition nan_row : gmap string string :=
  list_to_map
    [ ("Name", "Void Seeker"); ("Collector Number", "OGN-024");
      ("Domain 1", "NaN"); ("Domain 2", "NaN"); ("Subtype 1", "NaN");
      ("Energy", "NaN"); ("Might", "NaN");
      ("supertypes", "NaN"); ("Tags", "NaN") ].

Definition image_rows_sample : list (gmap string string) :=
  [ list_to_map [ ("Name", "Blazing Scorcher");
                  ("Card Image URL", "/img/old.png") ];
    list_to_map [ ("Name", "Blazing Scorcher ");
                  ("Card Image URL", " /img/foo.png") ];
    list_to_map [ ("Name", "Other"); ("Card Image URL", "") ] ].

(** * Properties *)

(** ** Strings *)

Section StringFacts.

Lemma app_cons (c : ascii) (s t : string) :
  String c s +:+ t = String c (s +:+ t).
Proof. reflexivity. Qed.

Lemma app_empty_l (t : string) : "" +:+ t = t.
Proof. reflexivity. Qed.

Lemma lower_app (a b : string) :
  Str.lower (a +:+ b) = Str.lower a +:+ Str.lower b.
Proof.
  induction a as [|c a IH]; [reflexivity|].
  rewrite app_cons. simpl. rewrite IH. reflexivity.
Qed.

Lemma startswith_app (p r : string) : Str.startswith (p +:+ r) p = true.
Proof.
  induction p as [|c p IH]; [destruct r; reflexivity|].
  rewrite app_cons. simpl. rewrite Ascii.eqb_refl. exact IH.
Qed.

Lemma contains_here (sub s : string) :
  Str.startswith s sub = true -> Str.contains sub s = true.
Proof. intros H. destruct s; simpl in *; rewrite H; reflexivity. Qed.

Lemma contains_app (sub pre post : string) :
  Str.contains sub (pre +:+ sub +:+ post) = true.
Proof.
  induction pre as [|c pre IH].
  - rewrite app_empty_l. apply contains_here, startswith_app.
  - rewrite app_cons. simpl. rewrite IH. apply orb_true_r.
Qed.

Lemma mem_In (x : string) (l : list string) :
  Str.mem x l = true <-> In x l.
Proof.
  unfold Str.mem. rewrite existsb_exists. split.
  - intros (y & Hy & E). apply String.eqb_eq in E. subst. exact Hy.
  - intros H. exists x. split; [exact H | apply String.eqb_refl].
Qed.

Lemma mem_false (x : string) (l : list string) :
  Str.mem x l = false <-> ~ In x l.
Proof.
  rewrite <- mem_In. destruct (Str.mem x l); split; congruence.
Qed.

Lemma truthy_true (s : string) : Str.truthy s = true <-> s <> "".
Proof. destruct s; simpl; split; congruence. Qed.

Lemma truthy_false (s : string) : Str.truthy s = false <-> s = "".
Proof. destruct s; simpl; split; congruence. Qed.

End StringFacts.

(** ** The two patterns of the known-keyword scan *)

Section PatternFacts.

Lemma imatch_lit_variant (kw k' post : string) :
  Str.lower k' = Str.lower kw ->
  Re.imatch_lit kw (k' +:+ post) = Some post.
Proof.
  revert k'. induction kw as [|a kw IH]; intros [|b k'] E;
    simpl in E; try discriminate.
  - reflexivity.
  - injection E as Ec Er. rewrite app_cons. simpl.
    rewrite Ec, Ascii.eqb_refl. apply IH, Er.
Qed.

Lemma search_keyword_here (kw s : string) :
  Re.match_keyword_here kw s = true -> Re.search_keyword kw s = true.
Proof.
  intros H. destruct s; [discriminate H|].
  cbn [Re.search_keyword]. rewrite H. reflexivity.
Qed.

Lemma search_keyword_app (kw pre s : string) :
  Re.match_keyword_here kw s = true ->
  Re.search_keyword kw (pre +:+ s) = true.
Proof.
  intros H. induction pre as [|c pre IH].
  - rewrite app_empty_l. apply search_keyword_here, H.
  - rewrite app_cons. simpl. rewrite IH. apply orb_true_r.
Qed.

(** ['(' kw] in any letter case, whatever follows. *)
Lemma match_paren_form (kw k' post : string) :
  Str.lower k' = Str.lower kw ->
  Re.match_keyword_here kw ("(" +:+ k' +:+ post) = true.
Proof.
  intros E. rewrite app_cons, app_empty_l. simpl.
  rewrite (imatch_lit_variant _ _ _ E). reflexivity.
Qed.

(** ['[' kw ']'] in any letter case. *)
Lemma match_bracket_form (kw k' post : string) :
  Str.lower k' = Str.lower kw ->
  Re.match_keyword_here kw ("[" +:+ k' +:+ "]" +:+ post) = true.
Proof.
  intros E. rewrite app_cons, app_empty_l. simpl.
  rewrite (imatch_lit_variant _ _ _ E).
  change ("]" +:+ post) with (String "]" post).
  destruct post; reflexivity.
Qed.

(** Both forms put the lower-cased name into the lower-cased text. *)
Lemma contains_lower_variant (kw k' pre open post : string) :
  Str.lower k' = Str.lower kw ->
  Str.contains (Str.lower kw)
    (Str.lower (pre +:+ open +:+ k' +:+ post)) = true.
Proof.
  intros E.
  replace (pre +:+ open +:+ k' +:+ post)
    with ((pre +:+ open) +:+ k' +:+ post).
  - rewrite lower_app, (lower_app k'), E. apply contains_app.
  - induction pre as [|c pre IH]; [reflexivity|].
    rewrite !app_cons, IH. reflexivity.
Qed.

End PatternFacts.

(** ** The two loops of [extract_keywords] *)

Section Loops.

Variable text : string.

Lemma known_step_cases (ks : list string) (kw : string) :
  known_step text ks kw = ks \/
  (known_step text ks kw = ks ++ [kw] /\ ~ In kw ks).
Proof.
  unfold known_step.
  destruct (Str.contains _ _); simpl; [|now left].
  destruct (Str.mem kw ks) eqn:M; simpl; [now left|].
  destruct (Re.search_keyword kw text); [|now left].
  right. split; [reflexivity | apply mem_false, M].
Qed.

Lemma known_step_hit (ks : list string) (kw : string) :
  Str.contains (Str.lower kw) (Str.lower text) = true ->
  Re.search_keyword kw text = true ->
  ~ In kw ks ->
  known_step text ks kw = ks ++ [kw].
Proof.
  intros C S N. apply mem_false in N.
  unfold known_step. rewrite C, S, N. reflexivity.
Qed.

(** The second loop only appends, and only names it was given that
    were not in the list. *)
Lemma known_loop_extends (kws ks : list string) :
  exists l, known_loop text kws ks = ks ++ l /\
            forall x, In x l -> In x kws /\ ~ In x ks.
Proof.
  revert ks. induction kws as [|kw kws IH]; intros ks.
  - exists []. split; [symmetry; apply app_nil_r | intros x []].
  - simpl. destruct (known_step_cases ks kw) as [E | [E N]]; rewrite E.
    + destruct (IH ks) as (l & -> & Hl). exists l. split; [reflexivity|].
      intros x Hx. destruct (Hl x Hx). split; [now right | assumption].
    + destruct (IH (ks ++ [kw])) as (l & -> & Hl). exists (kw :: l).
      split; [rewrite <- app_assoc; reflexivity|].
      intros x [<- | Hx]; [split; [now left | exact N]|].
      destruct (Hl x Hx) as [I N']. split; [now right|].
      intros C. apply N', in_or_app. now left.
Qed.

(** The first loop only appends. *)
Lemma bracket_loop_extends (ms ks : list string) :
  exists l, bracket_loop ms ks = ks ++ l.
Proof.
  revert ks. induction ms as [|m ms IH]; intros ks.
  - exists []. symmetry. apply app_nil_r.
  - change (bracket_loop (m :: ms) ks)
      with (bracket_loop ms (bracket_step ks m)).
    unfold bracket_step. destruct (_ && _).
    + destruct (IH (ks ++ [Str.strip m])) as (l & ->).
      exists (Str.strip m :: l). rewrite <- app_assoc. reflexivity.
    + apply IH.
Qed.

Lemma bracket_loop_snoc (ms ks : list string) (m : string) :
  bracket_loop (ms ++ [m]) ks = bracket_step (bracket_loop ms ks) m.
Proof. unfold bracket_loop. rewrite fold_left_app. reflexivity. Qed.

Lemma bracket_loop_app (l1 l2 ks : list string) :
  bracket_loop (l1 ++ l2) ks = bracket_loop l2 (bracket_loop l1 ks).
Proof. unfold bracket_loop. apply fold_left_app. Qed.

Lemma known_loop_app (l1 l2 ks : list string) :
  known_loop text (l1 ++ l2) ks = known_loop text l2 (known_loop text l1 ks).
Proof. unfold known_loop. apply fold_left_app. Qed.

(** A confirmed name is in the list once its turn has come. *)
Lemma known_loop_In (kws ks : list string) (kw : string) :
  In kw kws ->
  Str.contains (Str.lower kw) (Str.lower text) = true ->
  Re.search_keyword kw text = true ->
  In kw (known_loop text kws ks).
Proof.
  intros Hin C S. apply in_split in Hin as (l1 & l2 & ->).
  rewrite known_loop_app. simpl.
  destruct (known_loop_extends l2 (known_step text (known_loop text l1 ks) kw))
    as (l & E & _).
  unfold known_loop in E |- *. rewrite E. apply in_or_app. left.
  destruct (in_dec string_dec kw (fold_left (known_step text) l1 ks)) as [I|N].
  - destruct (known_step_cases (fold_left (known_step text) l1 ks) kw)
      as [-> | [-> _]]; [exact I | apply in_or_app; now left].
  - rewrite (known_step_hit _ _ C S N). apply in_or_app. right. now left.
Qed.

(** Entries that occur at most once. *)

Lemma count_occ_snoc_absent (k : string) (ks : list string) :
  ~ In k ks -> count_occ string_dec (ks ++ [k]) k = 1.
Proof.
  intros N. rewrite count_occ_app.
  apply (count_occ_not_In string_dec) in N. rewrite N. simpl.
  destruct (string_dec k k); [reflexivity | congruence].
Qed.

Lemma count_occ_snoc_other (k x : string) (ks : list string) :
  x <> k ->
  count_occ string_dec (ks ++ [x]) k = count_occ string_dec ks k.
Proof.
  intros N. rewrite count_occ_app. simpl.
  destruct (string_dec x k); [congruence | lia].
Qed.

Lemma known_step_once (k : string) (ks : list string) (kw : string) :
  at_most_once k ks -> at_most_once k (known_step text ks kw).
Proof.
  unfold at_most_once. intros H.
  destruct (known_step_cases ks kw) as [-> | [-> N]]; [exact H|].
  destruct (string_dec kw k) as [-> | D].
  - rewrite (count_occ_snoc_absent _ _ N). lia.
  - rewrite (count_occ_snoc_other _ _ _ D). exact H.
Qed.

Lemma known_loop_once (k : string) (kws ks : list string) :
  at_most_once k ks -> at_most_once k (known_loop text kws ks).
Proof.
  revert ks. induction kws as [|kw kws IH]; intros ks H; [exact H|].
  simpl. apply IH, known_step_once, H.
Qed.

(** A name without numeric suffix is its own base, so the first
    loop's presence test is on the very string it appends. *)
Lemma bracket_step_once (k : string) (ks : list string) (m : string) :
  Re.sub_num_suffix k = k ->
  at_most_once k ks -> at_most_once k (bracket_step ks m).
Proof.
  unfold at_most_once, bracket_step. intros B H.
  destruct (Str.truthy _) eqn:T; simpl; [|exact H].
  destruct (Str.mem _ ks) eqn:M; simpl; [exact H|].
  destruct (string_dec (Str.strip m) k) as [E | D].
  - rewrite E in *. rewrite B in M. apply mem_false in M.
    rewrite (count_occ_snoc_absent _ _ M). lia.
  - rewrite (count_occ_snoc_other _ _ _ D). exact H.
Qed.

Lemma bracket_loop_once (k : string) (ms ks : list string) :
  Re.sub_num_suffix k = k ->
  at_most_once k ks -> at_most_once k (bracket_loop ms ks).
Proof.
  intros B. revert ks. induction ms as [|m ms IH]; intros ks H; [exact H|].
  simpl. apply IH, bracket_step_once; assumption.
Qed.

End Loops.

(** ** Keyword extraction *)

Lemma known_keywords_NoDup : List.NoDup known_keywords.
Proof. apply NoDup_ListNoDup, (bool_decide_unpack _). vm_compute. exact I. Qed.

(** C1 (defect of the code): the list returned by [extract_keywords]
    is meant to have no two equal entries, yet a numbered keyword that
    occurs twice in the text is entered twice, because the first loop
    tests the base name and appends the numbered text. *)
Theorem extract_keywords_repeats_numbered_span :
  extract_keywords "[Assault 2] [Assault 2]"
    = ["Assault 2"; "Assault 2"; "Assault"] /\
  ~ List.NoDup (extract_keywords "[Assault 2] [Assault 2]").
Proof.
  assert (E : extract_keywords "[Assault 2] [Assault 2]"
              = ["Assault 2"; "Assault 2"; "Assault"]) by (vm_compute; reflexivity).
  split; [exact E|]. rewrite E. intros H.
  apply List.NoDup_cons_iff in H as [H _]. apply H. now left.
Qed.

(** C2, as stated, fails: after "[Assault]" the span "[Assault 2]" is
    not in the list and is not appended. *)
Lemma appended_iff_text_absent_fails :
  ~ appended_iff_text_absent "[Assault] [Assault 2]".
Proof.
  intros H.
  destruct (H ["Assault"] "Assault 2" [] eq_refl) as [Habs _].
  assert (N : ~ In "Assault 2" (bracket_loop ["Assault"] [])).
  { vm_compute. intros [E | []]. discriminate E. }
  specialize (Habs N). vm_compute in Habs. discriminate Habs.
Qed.

(** C2 (amended): for every span found by the bracket scan, the
    candidate is the inner text trimmed of surrounding white space.
    It is not appended when its base name (the candidate without a
    trailing run of spaces and digits) is empty or is already in the
    list, whether or not the candidate itself is there: "Assault 2"
    is not taken as distinct from "Assault".  It is appended, after
    the entries of the earlier spans, when its base name is non-empty
    and neither the base name nor the candidate is in the list. *)
Theorem bracket_scan_tests_base_name
  (text : string) (pre : list string) (m : string) (post : list string) :
  Re.findall_brackets text = pre ++ m :: post ->
  let ks := bracket_loop pre [] in
  let kw := Str.strip m in
  let base_kw := Re.sub_num_suffix kw in
  (base_kw = "" \/ In base_kw ks ->
     bracket_loop (pre ++ [m]) [] = ks) /\
  (base_kw <> "" -> ~ In base_kw ks -> ~ In kw ks ->
     bracket_loop (pre ++ [m]) [] = ks ++ [kw]) /\
  (exists l, bracket_scan text = bracket_loop (pre ++ [m]) [] ++ l).
Proof.
  intros F ks kw base_kw.
  assert (E : bracket_loop (pre ++ [m]) [] =
              if Str.truthy base_kw && negb (Str.mem base_kw ks)
              then ks ++ [kw] else ks)
    by (rewrite bracket_loop_snoc; reflexivity).
  split; [|split].
  - intros [T | I]; rewrite E.
    + apply truthy_false in T. rewrite T. reflexivity.
    + apply mem_In in I. rewrite I, andb_false_r. reflexivity.
  - intros T N _. apply truthy_true in T. apply mem_false in N.
    rewrite E, T, N. reflexivity.
  - unfold bracket_scan. rewrite F.
    change (pre ++ m :: post) with (pre ++ [m] ++ post).
    rewrite app_assoc, bracket_loop_app.
    apply bracket_loop_extends.
Qed.

Lemma bracket_scan_tests_base_name_witness :
  Re.findall_brackets "[Assault] [Assault 2] [ Deep 1 ]"
    = ["Assault"] ++ "Assault 2" :: [" Deep 1 "] /\
  bracket_loop (["Assault"] ++ ["Assault 2"]) [] = ["Assault"] /\
  bracket_loop (["Assault"; "Assault 2"] ++ [" Deep 1 "]) []
    = ["Assault"] ++ ["Deep 1"].
Proof.
  assert (F : Re.findall_brackets "[Assault] [Assault 2] [ Deep 1 ]"
              = ["Assault"] ++ "Assault 2" :: [" Deep 1 "]) by reflexivity.
  assert (G : Re.findall_brackets "[Assault] [Assault 2] [ Deep 1 ]"
              = ["Assault"; "Assault 2"] ++ " Deep 1 " :: []) by reflexivity.
  split; [exact F|]. split.
  - destruct (bracket_scan_tests_base_name _ _ _ _ F) as (H & _ & _).
    apply H. right. vm_compute. now left.
  - destruct (bracket_scan_tests_base_name _ _ _ _ G) as (_ & H & _).
    apply H.
    + vm_compute. discriminate.
    + vm_compute. intros [E | []]. discriminate E.
    + vm_compute. intros [E | []]. discriminate E.
Defined.

(** C6: when the text contains "[Quick Attack]", the returned list
    holds the string "Quick Attack" exactly once. *)
Theorem quick_attack_exactly_once (text pre post : string) :
  text = pre +:+ "[Quick Attack]" +:+ post ->
  count_occ string_dec (extract_keywords text) "Quick Attack" = 1.
Proof.
  intros ->. set (text := pre +:+ "[Quick Attack]" +:+ post).
  assert (U : at_most_once "Quick Attack" (extract_keywords text)).
  { apply known_loop_once, bracket_loop_once; [reflexivity|].
    unfold at_most_once. simpl. lia. }
  assert (I : In "Quick Attack" (extract_keywords text)).
  { apply known_loop_In.
    - vm_compute. tauto.
    - apply (contains_lower_variant "Quick Attack" "Quick Attack" pre "["
               ("]" +:+ post) eq_refl).
    - apply search_keyword_app.
      apply (match_bracket_form "Quick Attack" "Quick Attack" post eq_refl). }
  apply (count_occ_In string_dec) in I. unfold at_most_once in U. lia.
Qed.

Lemma quick_attack_exactly_once_witness :
  count_occ string_dec
    (extract_keywords "Deal 2. [Quick Attack] [Quick Attack] (Quick Attack)")
    "Quick Attack" = 1.
Proof.
  apply (quick_attack_exactly_once _ "Deal 2. "
           " [Quick Attack] (Quick Attack)").
  reflexivity.
Defined.

(** C9: the confirmation of a known keyword ignores letter case, and
    its parenthesized form asks for nothing after the name: when the
    text holds '(' followed by the name [K] in any letter case (or the
    name in any letter case between brackets) and [K] is not in the
    list left by the bracket scan, the second loop appends the
    canonical name [K], once.  So "(playing" yields "Play" and
    "[quick attack]" yields "Quick Attack" after the bracketed text. *)
Theorem known_scan_confirms_any_case :
  (forall text K pre k' post : string,
     In K known_keywords ->
     Str.lower k' = Str.lower K ->
     text = pre +:+ "(" +:+ k' +:+ post \/
     text = pre +:+ "[" +:+ k' +:+ "]" +:+ post ->
     ~ In K (bracket_scan text) ->
     exists l1 l2,
       extract_keywords text = bracket_scan text ++ l1 ++ K :: l2 /\
       ~ In K l1 /\ ~ In K l2) /\
  extract_keywords "(playing" = ["Play"] /\
  extract_keywords "[quick attack]" = ["quick attack"; "Quick Attack"].
Proof.
  split; [|split; vm_compute; reflexivity].
  intros text K pre k' post HK E Htext N.
  assert (C : Str.contains (Str.lower K) (Str.lower text) = true).
  { destruct Htext as [-> | ->].
    - apply (contains_lower_variant K k' pre "(" post E).
    - apply (contains_lower_variant K k' pre "[" ("]" +:+ post) E). }
  assert (S : Re.search_keyword K text = true).
  { destruct Htext as [-> | ->]; apply search_keyword_app.
    - apply match_paren_form, E.
    - apply match_bracket_form, E. }
  destruct (in_split _ _ HK) as (la & lb & Hsplit).
  pose proof known_keywords_NoDup as ND. rewrite Hsplit in ND.
  apply List.NoDup_remove_2 in ND.
  unfold extract_keywords. rewrite Hsplit, known_loop_app.
  destruct (known_loop_extends text la (bracket_scan text)) as (l1 & E1 & H1).
  rewrite E1.
  assert (N1 : ~ In K l1).
  { intros I. apply ND, in_or_app. left. apply H1, I. }
  assert (N' : ~ In K (bracket_scan text ++ l1)).
  { intros I. apply in_app_or in I as [I | I]; [apply N, I | apply N1, I]. }
  change (known_loop text (K :: lb) (bracket_scan text ++ l1))
    with (known_loop text lb (known_step text (bracket_scan text ++ l1) K)).
  rewrite (known_step_hit text _ _ C S N').
  destruct (known_loop_extends text lb ((bracket_scan text ++ l1) ++ [K]))
    as (l2 & E2 & H2).
  exists l1, l2. rewrite E2. split.
  - rewrite <- !app_assoc. reflexivity.
  - split; [exact N1|]. intros I. destruct (H2 K I) as [_ N2].
    apply N2, in_or_app. right. now left.
Qed.

Lemma known_scan_confirms_any_case_witness :
  exists l1 l2,
    extract_keywords "Deal 1 (PLAYing this)"
      = bracket_scan "Deal 1 (PLAYing this)" ++ l1 ++ "Play" :: l2 /\
    ~ In "Play" l1 /\ ~ In "Play" l2.
Proof.
  apply (proj1 known_scan_confirms_any_case
           "Deal 1 (PLAYing this)" "Play" "Deal 1 " "PLAY" "ing this)").
  - vm_compute. tauto.
  - reflexivity.
  - left. reflexivity.
  - vm_compute. intros [].
Defined.

(** ** [parse_csv_row] *)

Section RowFacts.

Lemma truthy_eqb (s : string) : Str.truthy s = negb (String.eqb s "").
Proof. destruct s; reflexivity. Qed.

Lemma mem_two (s a b : string) :
  Str.mem s [a; b] = String.eqb s a || String.eqb s b.
Proof. unfold Str.mem. simpl. rewrite orb_false_r. reflexivity. Qed.

(** The guard [field and field not in ['', '-']]. *)
Lemma guard_blank_dash (s : string) :
  Str.truthy s && negb (Str.mem s [""; "-"])
  = negb (String.eqb s "" || String.eqb s "-").
Proof.
  rewrite truthy_eqb, mem_two.
  destruct (String.eqb s ""), (String.eqb s "-"); reflexivity.
Qed.

Lemma parse_stat_spec (field : string) :
  parse_stat field = Ok (Spec.stat field).
Proof.
  unfold parse_stat, Spec.stat. rewrite guard_blank_dash.
  destruct (_ || _); simpl; [reflexivity|].
  destruct (Float.float field) as [f | []]; reflexivity.
Qed.

Lemma remove_char_all (c : ascii) (s : string) :
  String.eqb (Str.remove_char c s) "" = Spec.all_chars (Ascii.eqb c) s.
Proof.
  induction s as [|a s IH]; [reflexivity|]. simpl.
  rewrite (Ascii.eqb_sym c a). destruct (Ascii.eqb a c); [exact IH | reflexivity].
Qed.

Lemma upper_empty (s : string) : Str.upper s = "" <-> s = "".
Proof. destruct s; simpl; split; congruence. Qed.

Lemma parse_power_spec (p : string) :
  parse_power p = Ok (Spec.power p).
Proof.
  unfold parse_power, Spec.power, Spec.all_C.
  rewrite guard_blank_dash, remove_char_all.
  destruct (String.eqb p "") eqn:E; simpl; [reflexivity|].
  destruct (String.eqb p "-"); simpl; [reflexivity|].
  assert (T : Str.truthy (Str.upper p) = true).
  { apply truthy_true. rewrite upper_empty. apply String.eqb_neq, E. }
  rewrite T. simpl.
  destruct (Spec.all_chars _ _); [reflexivity|].
  destruct (Float.float p) as [f | []]; reflexivity.
Qed.

Variable row : gmap string string.

(** The conditional on [row.get(key)] changes nothing: a missing or
    empty field capitalizes to the empty string. *)
Lemma domain_field_eq (key : string) :
  domain_field row key = Str.capitalize (Str.strip (get row key)).
Proof.
  unfold domain_field, get. destruct (row !! key) as [v|]; simpl.
  - destruct v; reflexivity.
  - reflexivity.
Qed.

Lemma build_domain_spec (v1 v2 : string) :
  build_domain (Str.capitalize (Str.strip v1)) (Str.capitalize (Str.strip v2))
  = Spec.domain v1 v2.
Proof.
  unfold build_domain, Spec.domain, Spec.present_domain, not_blank_nan.
  set (d1 := Str.capitalize (Str.strip v1)).
  set (d2 := Str.capitalize (Str.strip v2)).
  rewrite !mem_two, !truthy_eqb.
  assert (L : forall d, String.eqb d "" = false ->
                        String.eqb (Str.lower d) "" = false).
  { intros [|c d]; [discriminate | reflexivity]. }
  destruct (String.eqb d1 "") eqn:E1; destruct (String.eqb d2 "") eqn:E2;
    simpl; try rewrite (L _ E1); try rewrite (L _ E2); simpl;
    try destruct (String.eqb (Str.lower d1) "nan");
    try destruct (String.eqb (Str.lower d2) "nan"); reflexivity.
Qed.

Lemma parse_csv_row_skip :
  Str.strip (get row "Name") = "" \/
  Str.strip (get row "Collector Number") = "" ->
  parse_csv_row row = Ok None.
Proof.
  intros H. unfold parse_csv_row.
  destruct (Str.truthy (Str.strip (get row "Name"))) eqn:T1; simpl;
    [|reflexivity].
  destruct (Str.truthy (Str.strip (get row "Collector Number"))) eqn:T2;
    simpl; [|reflexivity].
  apply truthy_true in T1, T2. tauto.
Qed.

(** What a returned record holds. *)
Lemma parse_csv_row_Some (card : CardRecord) :
  parse_csv_row row = Ok (Some card) ->
  Str.strip (get row "Name") <> "" /\
  Str.strip (get row "Collector Number") <> "" /\
  id card = Str.strip (get row "Collector Number") /\
  name card = Str.strip (get row "Name") /\
  domain card = Spec.domain (get row "Domain 1") (get row "Domain 2") /\
  energy (stats card) = Spec.stat (Str.strip (get row "Energy")) /\
  might (stats card) = Spec.stat (Str.strip (get row "Might")) /\
  power (stats card) = Spec.power (Str.strip (get row "Power")) /\
  keywords (rules_text card)
    = extract_keywords (Str.strip (get row "Description")) /\
  supertypes card =
    (let s := Str.strip (get row "supertypes") in
     if Str.truthy s && not_blank_nan (Str.lower s)
     then Some (Str.lower s) else None) /\
  tags card =
    (let t := Str.strip (get row "Tags") in
     if Str.truthy t && not_blank_nan (Str.lower t)
     then Some (split_tags t) else None) /\
  image_url card = None.
Proof.
  unfold parse_csv_row.
  destruct (Str.truthy (Str.strip (get row "Name"))) eqn:T1; simpl;
    [|discriminate].
  destruct (Str.truthy (Str.strip (get row "Collector Number"))) eqn:T2;
    simpl; [|discriminate].
  rewrite !parse_stat_spec, parse_power_spec.
  unfold mbind, result_bind, rbind.
  intros H. injection H as <-. simpl.
  rewrite !domain_field_eq, build_domain_spec.
  apply truthy_true in T1, T2. repeat split; assumption.
Qed.

(** No exception leaves the function. *)
Lemma parse_csv_row_returns :
  exists r, parse_csv_row row = Ok r.
Proof.
  unfold parse_csv_row.
  destruct (Str.truthy (Str.strip (get row "Name"))); simpl; [|eauto].
  destruct (Str.truthy (Str.strip (get row "Collector Number"))); simpl;
    [|eauto].
  rewrite !parse_stat_spec, parse_power_spec.
  unfold mbind, result_bind, rbind. eauto.
Qed.

Lemma parse_csv_row_record :
  Str.strip (get row "Name") <> "" ->
  Str.strip (get row "Collector Number") <> "" ->
  exists card, parse_csv_row row = Ok (Some card).
Proof.
  intros N1 N2. apply truthy_true in N1, N2. unfold parse_csv_row.
  rewrite N1, N2. simpl. rewrite !parse_stat_spec, parse_power_spec.
  unfold mbind, result_bind, rbind. eauto.
Qed.

End RowFacts.

(** C3: a row whose trimmed Name or trimmed Collector Number is empty
    gives no record; any other row gives one record, whose [id] is the
    trimmed Collector Number and whose [name] is the trimmed Name, both
    non-empty. *)
Theorem parse_csv_row_required_fields (row : gmap string string) :
  let n := Str.strip (get row "Name") in
  let i := Str.strip (get row "Collector Number") in
  (n = "" \/ i = "" -> parse_csv_row row = Ok None) /\
  (n <> "" /\ i <> "" ->
   exists card,
     parse_csv_row row = Ok (Some card) /\
     id card = i /\ name card = n /\ id card <> "" /\ name card <> "").
Proof.
  intros n i. split.
  - apply parse_csv_row_skip.
  - intros [Hn Hi].
    destruct (parse_csv_row_record row Hn Hi) as (card & E).
    exists card. split; [exact E|].
    destruct (parse_csv_row_Some row card E) as (_ & _ & -> & -> & _).
    repeat split; assumption.
Qed.

Lemma parse_csv_row_required_fields_witness :
  parse_csv_row nameless_row = Ok None /\
  exists card,
    parse_csv_row sample_row = Ok (Some card) /\
    id card = "OGN-001" /\ name card = "Blazing Scorcher" /\
    id card <> "" /\ name card <> "".
Proof.
  split.
  - apply (proj1 (parse_csv_row_required_fields nameless_row)).
    left. reflexivity.
  - apply (proj2 (parse_csv_row_required_fields sample_row)).
    split; vm_compute; discriminate.
Defined.

(** C4: on a row that is not skipped, [domain] is the two domain
    fields, trimmed and capitalized, without those that are empty or
    "nan" in any letter case, joined with ", " in the order Domain 1,
    Domain 2, and "Colorless" when none is left; so it is never the
    empty string, and "fire" with "water" gives "Fire, Water". *)
Theorem domain_derivation (row : gmap string string) (card : CardRecord) :
  parse_csv_row row = Ok (Some card) ->
  domain card = Spec.domain (get row "Domain 1") (get row "Domain 2") /\
  domain card <> "" /\
  (Spec.present_domain (get row "Domain 1") = None ->
   Spec.present_domain (get row "Domain 2") = None ->
   domain card = "Colorless") /\
  (get row "Domain 1" = "fire" -> get row "Domain 2" = "water" ->
   domain card = "Fire, Water").
Proof.
  intros H.
  destruct (parse_csv_row_Some row card H) as (_ & _ & _ & _ & -> & _).
  split; [reflexivity|]. split; [|split].
  - unfold Spec.domain, Spec.present_domain.
    set (d1 := Str.capitalize _). set (d2 := Str.capitalize _).
    destruct (String.eqb d1 "") eqn:E1; simpl.
    + destruct (String.eqb d2 "") eqn:E2; simpl; [discriminate|].
      destruct (String.eqb (Str.lower d2) "nan"); [discriminate|].
      apply String.eqb_neq, E2.
    + apply String.eqb_neq in E1.
      destruct (String.eqb (Str.lower d1) "nan");
        destruct (String.eqb d2 "") eqn:E2; simpl;
        try destruct (String.eqb (Str.lower d2) "nan");
        try discriminate; try exact E1;
        try (apply String.eqb_neq, E2);
        destruct d1; [congruence | discriminate].
  - intros N1 N2. unfold Spec.domain. rewrite N1, N2. reflexivity.
  - intros -> ->. reflexivity.
Qed.

Lemma domain_derivation_witness :
  exists card,
    parse_csv_row sample_row = Ok (Some card) /\
    domain card = "Fire, Water" /\ domain card <> "".
Proof.
  eexists. split; [vm_compute; reflexivity|].
  match goal with
  | |- domain ?c = _ /\ _ =>
      destruct (domain_derivation sample_row c) as (_ & N & _ & F)
  end.
  - vm_compute. reflexivity.
  - split; [apply F; reflexivity | exact N].
Defined.

(** C5: on a row that is not skipped, [stats.power] comes from the
    trimmed Power field: empty or "-" is absent; a field whose upper
    case is one or more 'C' gives that upper-case string; otherwise
    the number when [float] accepts the field and the field itself,
    unchanged, when it does not.  So "CC" gives the string "CC", "3"
    the number 3 and "X" the string "X". *)
Theorem power_coercion (row : gmap string string) (card : CardRecord) :
  parse_csv_row row = Ok (Some card) ->
  let p := Str.strip (get row "Power") in
  power (stats card) = Spec.power p /\
  (p = "" \/ p = "-" -> power (stats card) = None) /\
  (p <> "" -> p <> "-" -> Spec.all_C (Str.upper p) = true ->
   power (stats card) = Some (PowerStr (Str.upper p))) /\
  (p <> "" -> p <> "-" -> Spec.all_C (Str.upper p) = false ->
   forall f, Float.float p = Ok f ->
   power (stats card) = Some (PowerNum f)) /\
  (p <> "" -> p <> "-" -> Spec.all_C (Str.upper p) = false ->
   Float.float p = Raise ValueError ->
   power (stats card) = Some (PowerStr p)) /\
  (p = "CC" -> power (stats card) = Some (PowerStr "CC")) /\
  (p = "3" -> power (stats card) = Some (PowerNum (FDec false 3 0))) /\
  (p = "X" -> power (stats card) = Some (PowerStr "X")).
Proof.
  intros H p.
  destruct (parse_csv_row_Some row card H)
    as (_ & _ & _ & _ & _ & _ & _ & -> & _).
  fold p. split; [reflexivity|]. unfold Spec.power.
  split; [intros [-> | ->]; reflexivity|].
  split; [|split; [|split]].
  - intros N1 N2 A. apply String.eqb_neq in N1, N2.
    rewrite N1, N2, A. reflexivity.
  - intros N1 N2 A f F. apply String.eqb_neq in N1, N2.
    rewrite N1, N2, A, F. reflexivity.
  - intros N1 N2 A F. apply String.eqb_neq in N1, N2.
    rewrite N1, N2, A, F. reflexivity.
  - repeat split; intros ->; reflexivity.
Qed.

Lemma power_coercion_witness :
  exists card,
    parse_csv_row sample_row = Ok (Some card) /\
    power (stats card) = Some (PowerStr "CC").
Proof.
  eexists. split; [vm_compute; reflexivity|].
  match goal with
  | |- power (stats ?c) = _ =>
      destruct (power_coercion sample_row c) as (_ & _ & _ & _ & _ & C & _)
  end.
  - vm_compute. reflexivity.
  - apply C. reflexivity.
Defined.

(** C8: [parse_csv_row] raises nothing, and on a row that is not
    skipped [stats.energy] and [stats.might] come from the trimmed
    Energy and Might fields: empty or "-" is absent; otherwise the
    number that [float] parses, and absent when [float] fails. *)
Theorem energy_might_coercion (row : gmap string string) :
  (exists r, parse_csv_row row = Ok r) /\
  parse_stat (Str.strip (get row "Energy"))
    = Ok (Spec.stat (Str.strip (get row "Energy"))) /\
  parse_stat (Str.strip (get row "Might"))
    = Ok (Spec.stat (Str.strip (get row "Might"))) /\
  (forall card, parse_csv_row row = Ok (Some card) ->
     energy (stats card) = Spec.stat (Str.strip (get row "Energy")) /\
     might (stats card) = Spec.stat (Str.strip (get row "Might"))) /\
  (forall field,
     (field = "" \/ field = "-" -> Spec.stat field = None) /\
     (field <> "" -> field <> "-" ->
      forall f, Float.float field = Ok f -> Spec.stat field = Some f) /\
     (field <> "" -> field <> "-" ->
      Float.float field = Raise ValueError -> Spec.stat field = None)).
Proof.
  split; [apply parse_csv_row_returns|].
  split; [apply parse_stat_spec|]. split; [apply parse_stat_spec|].
  split.
  - intros card H.
    destruct (parse_csv_row_Some row card H)
      as (_ & _ & _ & _ & _ & -> & -> & _).
    split; reflexivity.
  - intros field. unfold Spec.stat. split; [intros [-> | ->]; reflexivity|].
    split; intros N1 N2; apply String.eqb_neq in N1, N2; rewrite N1, N2; simpl.
    + intros f ->. reflexivity.
    + intros ->. reflexivity.
Qed.

Lemma energy_might_coercion_witness :
  exists card,
    parse_csv_row sample_row = Ok (Some card) /\
    energy (stats card) = Some (FDec false 2 0) /\
    might (stats card) = None.
Proof.
  eexists. split; [vm_compute; reflexivity|].
  match goal with
  | |- energy (stats ?c) = _ /\ _ =>
      destruct (energy_might_coercion sample_row) as (_ & _ & _ & S & _);
      destruct (S c) as [-> ->]
  end.
  - vm_compute. reflexivity.
  - split; vm_compute; reflexivity.
Defined.

(** ** Non-finite words *)

Section NonFinite.

Lemma is_space_lower (c : ascii) :
  Char.is_space (Char.lower c) = Char.is_space c.
Proof. destruct c as [[] [] [] [] [] [] [] []]; reflexivity. Qed.

Lemma lower_upper (c : ascii) : Char.lower (Char.upper c) = Char.lower c.
Proof. destruct c as [[] [] [] [] [] [] [] []]; reflexivity. Qed.

Lemma lower_lower (c : ascii) : Char.lower (Char.lower c) = Char.lower c.
Proof. destruct c as [[] [] [] [] [] [] [] []]; reflexivity. Qed.

Lemma lower_idem (s : string) : Str.lower (Str.lower s) = Str.lower s.
Proof.
  induction s as [|c s IH]; [reflexivity|].
  simpl. rewrite lower_lower, IH. reflexivity.
Qed.

Lemma lower_capitalize (s : string) :
  Str.lower (Str.capitalize s) = Str.lower s.
Proof.
  destruct s as [|c s]; [reflexivity|].
  simpl. rewrite lower_upper, lower_idem. reflexivity.
Qed.

Lemma all_not_space_lower (s : string) :
  Spec.all_chars not_space (Str.lower s) = Spec.all_chars not_space s.
Proof.
  induction s as [|c s IH]; [reflexivity|].
  simpl. unfold not_space at 1 3. rewrite is_space_lower, IH. reflexivity.
Qed.

Lemma rstrip_no_space (s : string) :
  Spec.all_chars not_space s = true -> Str.rstrip s = s.
Proof.
  induction s as [|c s IH]; [reflexivity|].
  simpl. intros H. apply andb_true_iff in H as [Hc Hs].
  rewrite (IH Hs). unfold not_space in Hc.
  destruct (Char.is_space c); [discriminate|]. destruct s; reflexivity.
Qed.

Lemma strip_no_space (s : string) :
  Spec.all_chars not_space s = true -> Str.strip s = s.
Proof.
  intros H. unfold Str.strip.
  assert (L : Str.lstrip s = s).
  { destruct s as [|c s]; [reflexivity|]. simpl in *.
    unfold not_space in H. destruct (Char.is_space c); [discriminate|].
    reflexivity. }
  rewrite L. apply rstrip_no_space, H.
Qed.

Lemma sign_letter (c : ascii) (r : string) :
  Char.is_lower (Char.lower c) = true ->
  Float.sign (String c r) = (false, String c r).
Proof.
  destruct c as [[] [] [] [] [] [] [] []]; intros H;
    try reflexivity; discriminate H.
Qed.

Variable s : string.
Hypothesis word :
  Str.lower s = "nan" \/ Str.lower s = "inf" \/ Str.lower s = "infinity".

Lemma word_strip : Str.strip s = s.
Proof.
  apply strip_no_space. rewrite <- all_not_space_lower.
  destruct word as [-> | [-> | ->]]; reflexivity.
Qed.

Lemma word_sign : Float.sign s = (false, s).
Proof.
  destruct s as [|c r]; [simpl in word; intuition discriminate|].
  apply sign_letter. simpl in word.
  destruct word as [E | [E | E]]; injection E as -> _; reflexivity.
Qed.

Lemma word_not_blank_dash :
  String.eqb s "" || String.eqb s "-" = false.
Proof.
  apply orb_false_iff. split; apply String.eqb_neq; intros ->;
    simpl in word; intuition discriminate.
Qed.

Lemma float_word :
  Float.float s = Ok (if String.eqb (Str.lower s) "nan" then FNan
                      else FInf false).
Proof.
  unfold Float.float. rewrite word_strip, word_sign.
  destruct word as [-> | [-> | ->]]; reflexivity.
Qed.

Lemma stat_word :
  exists f, parse_stat s = Ok (Some f) /\ is_finite f = false.
Proof.
  rewrite parse_stat_spec. unfold Spec.stat.
  rewrite word_not_blank_dash, float_word.
  eexists. split; [reflexivity|].
  destruct (String.eqb _ _); reflexivity.
Qed.

End NonFinite.

(** C10: the words "nan", "inf" and "Infinity", in any letter case,
    are accepted by [float]: a row that is not skipped and whose
    trimmed Energy (or Might) is such a word has that stat present,
    with a value that is not finite.  The same word "nan" in a domain,
    subtype, supertypes or Tags field makes that field absent. *)
Theorem stat_accepts_non_finite_words
  (row : gmap string string) (card : CardRecord) (s : string) :
  parse_csv_row row = Ok (Some card) ->
  Str.lower s = "nan" \/ Str.lower s = "inf" \/ Str.lower s = "infinity" ->
  (exists f, parse_stat s = Ok (Some f) /\ is_finite f = false) /\
  (Str.strip (get row "Energy") = s ->
   exists f, energy (stats card) = Some f /\ is_finite f = false) /\
  (Str.strip (get row "Might") = s ->
   exists f, might (stats card) = Some f /\ is_finite f = false) /\
  (Str.lower s = "nan" ->
   (Str.strip (get row "Domain 1") = s ->
    Str.strip (get row "Domain 2") = s -> domain card = "Colorless") /\
   (forall subtypes i, Str.strip (get row (subtype_key i)) = s ->
    subtype_step row subtypes i = subtypes) /\
   (Str.strip (get row "supertypes") = s -> supertypes card = None) /\
   (Str.strip (get row "Tags") = s -> tags card = None)).
Proof.
  intros H W.
  destruct (parse_csv_row_Some row card H)
    as (_ & _ & _ & _ & D & E & M & _ & _ & S & T & _).
  pose proof (stat_word s W) as (f & P & F).
  assert (V : Spec.stat s = Some f).
  { rewrite parse_stat_spec in P. congruence. }
  split; [exists f; split; assumption|].
  split; [intros Es; exists f; rewrite E, Es; split; assumption|].
  split; [intros Es; exists f; rewrite M, Es; split; assumption|].
  intros N.
  assert (B : forall t, Str.truthy t && not_blank_nan (Str.lower s) = false).
  { intros t. unfold not_blank_nan. rewrite N. apply andb_false_r. }
  split; [|split; [|split]].
  - intros E1 E2. rewrite D. unfold Spec.domain, Spec.present_domain.
    rewrite E1, E2, lower_capitalize, N, orb_true_r. reflexivity.
  - intros subtypes i Ei. unfold subtype_step. rewrite Ei, B. reflexivity.
  - intros Es. rewrite S, Es. simpl. rewrite B. reflexivity.
  - intros Es. rewrite T, Es. simpl. rewrite B. reflexivity.
Qed.

Lemma stat_accepts_non_finite_words_witness :
  exists card,
    parse_csv_row nan_row = Ok (Some card) /\
    (exists f, energy (stats card) = Some f /\ is_finite f = false) /\
    domain card = "Colorless" /\ supertypes card = None /\ tags card = None.
Proof.
  eexists. split; [vm_compute; reflexivity|].
  match goal with
  | |- (exists f, energy (stats ?c) = _ /\ _) /\ _ =>
      destruct (stat_accepts_non_finite_words nan_row c "NaN")
        as (_ & E & _ & N)
  end.
  - vm_compute. reflexivity.
  - left. reflexivity.
  - destruct (N eq_refl) as (D & _ & S & T).
    split; [apply E; reflexivity|].
    split; [apply D; reflexivity|].
    split; [apply S | apply T]; reflexivity.
Defined.

(** ** The image index *)

Section Images.

Lemma load_images_step_insert (images row : gmap string string) :
  let n := Str.strip (get row "Name") in
  let u := Str.strip (get row "Card Image URL") in
  n <> "" -> u <> "" ->
  load_images_step images row = <[n := absolute_url u]> images.
Proof.
  intros n u Hn Hu. apply truthy_true in Hn, Hu.
  unfold load_images_step. fold n u. rewrite Hn, Hu. reflexivity.
Qed.

Lemma load_images_step_other (images row : gmap string string) (n : string) :
  ~ writes row n ->
  load_images_step images row !! n = images !! n.
Proof.
  intros W. unfold load_images_step.
  destruct (Str.truthy (Str.strip (get row "Name"))); simpl; [|reflexivity].
  destruct (Str.truthy (Str.strip (get row "Card Image URL"))) eqn:T;
    [|reflexivity].
  apply lookup_insert_ne. intros E. apply W. split; [exact E|].
  apply truthy_true, T.
Qed.

Lemma load_images_fold_other (rows : list (gmap string string))
  (images : gmap string string) (n : string) :
  (forall r, In r rows -> ~ writes r n) ->
  fold_left load_images_step rows images !! n = images !! n.
Proof.
  revert images. induction rows as [|r rows IH]; intros images H;
    [reflexivity|].
  simpl. rewrite IH.
  - apply load_images_step_other, H. now left.
  - intros r' I. apply H. now right.
Qed.

(** The last row that assigns a name decides its URL. *)
Lemma load_images_last (rows1 : list (gmap string string))
  (row : gmap string string) (rows2 : list (gmap string string)) :
  let n := Str.strip (get row "Name") in
  let u := Str.strip (get row "Card Image URL") in
  n <> "" -> u <> "" ->
  (forall r, In r rows2 -> ~ writes r n) ->
  load_images (rows1 ++ row :: rows2) !! n = Some (absolute_url u).
Proof.
  intros n u Hn Hu H. unfold load_images.
  rewrite fold_left_app. simpl.
  rewrite (load_images_fold_other _ _ _ H).
  rewrite (load_images_step_insert _ row Hn Hu).
  apply lookup_insert_eq.
Qed.

Variable images : gmap string string.

Lemma main_step_joined (cards : list CardRecord) (row : gmap string string) :
  (forall c, In c cards -> image_joined images c) ->
  exists cards',
    main_step images cards row = Ok cards' /\
    forall c, In c cards' -> image_joined images c.
Proof.
  intros H. unfold main_step.
  destruct (parse_csv_row_returns row) as ([card|] & E); rewrite E;
    unfold mbind, result_bind, rbind; [|eauto].
  eexists. split; [reflexivity|].
  intros c I. apply in_app_or in I as [I | [<- | []]]; [apply H, I|].
  destruct (parse_csv_row_Some row card E)
    as (_ & _ & _ & _ & _ & _ & _ & _ & _ & _ & _ & U).
  unfold image_joined.
  destruct (images !! name card) as [url|] eqn:L; simpl.
  - symmetry. exact L.
  - rewrite U, L. reflexivity.
Qed.

Lemma main_loop_joined (rows : list (gmap string string))
  (cards : list CardRecord) :
  (forall c, In c cards -> image_joined images c) ->
  exists cards',
    main_loop images rows cards = Ok cards' /\
    forall c, In c cards' -> image_joined images c.
Proof.
  revert cards. induction rows as [|row rows IH]; intros cards H.
  - exists cards. split; [reflexivity | exact H].
  - destruct (main_step_joined cards row H) as (cards1 & E & H1).
    simpl. rewrite E. unfold mbind, result_bind, rbind.
    apply IH, H1.
Qed.

End Images.

(** C7: an image row with non-empty trimmed name and URL is entered
    under its name, a URL that starts with '/' being prefixed with
    "https://riftdecks.com" (so "/img/foo.png" becomes
    "https://riftdecks.com/img/foo.png"); of several rows with one
    name the last decides; and [main] gives every card whose name is a
    key of the index exactly the URL found there as [image_url], and
    no [image_url] to a card whose name is not a key. *)
Theorem image_index_and_attachment :
  absolute_url "/img/foo.png" = "https://riftdecks.com/img/foo.png" /\
  (forall url, Str.startswith url "/" = true ->
     absolute_url url = "https://riftdecks.com" +:+ url) /\
  (forall images row,
     let n := Str.strip (get row "Name") in
     let u := Str.strip (get row "Card Image URL") in
     n <> "" -> u <> "" ->
     load_images_step images row = <[n := absolute_url u]> images) /\
  (forall rows1 row rows2,
     let n := Str.strip (get row "Name") in
     let u := Str.strip (get row "Card Image URL") in
     n <> "" -> u <> "" ->
     (forall r, In r rows2 -> ~ writes r n) ->
     load_images (rows1 ++ row :: rows2) !! n = Some (absolute_url u)) /\
  (forall image_rows rows,
     exists cards,
       main image_rows rows = Ok cards /\
       forall card, In card cards ->
         (forall url, load_images image_rows !! name card = Some url ->
                      image_url card = Some url) /\
         (load_images image_rows !! name card = None ->
          image_url card = None)).
Proof.
  split; [reflexivity|].
  split; [intros url H; unfold absolute_url; rewrite H; reflexivity|].
  split; [apply load_images_step_insert|].
  split; [apply load_images_last|].
  intros image_rows rows.
  destruct (main_loop_joined (load_images image_rows) rows [])
    as (cards & E & H); [intros c []|].
  exists cards. split; [exact E|].
  intros card I. specialize (H card I). unfold image_joined in H.
  split; [intros url L | intros L]; rewrite H, L; reflexivity.
Qed.

Lemma image_index_and_attachment_witness :
  load_images image_rows_sample !! "Blazing Scorcher"
    = Some "https://riftdecks.com/img/foo.png" /\
  exists card other,
    main image_rows_sample
      [sample_row; nameless_row;
       list_to_map [("Name", "Other"); ("Collector Number", "OGN-003")]]
      = Ok [card; other] /\
    image_url card = Some "https://riftdecks.com/img/foo.png" /\
    image_url other = None.
Proof.
  destruct image_index_and_attachment as (_ & _ & _ & L & M).
  split.
  - pose proof
      (L [list_to_map [ ("Name", "Blazing Scorcher");
                        ("Card Image URL", "/img/old.png") ]]
         (list_to_map [ ("Name", "Blazing Scorcher ");
                        ("Card Image URL", " /img/foo.png") ])
         [list_to_map [ ("Name", "Other"); ("Card Image URL", "") ]]) as P.
    cbv zeta in P. apply P.
    + vm_compute. discriminate.
    + vm_compute. discriminate.
    + intros r [<- | []] [_ W]. apply W. vm_compute. reflexivity.
  - do 2 eexists. split; [vm_compute; reflexivity|].
    split; reflexivity.
Defined.

(** * Further properties *)

(** ** Trimming *)

Section Trimming.

Lemma lstrip_head (s : string) :
  Str.lstrip s = "" \/
  exists c r, Str.lstrip s = String c r /\ Char.is_space c = false.
Proof.
  induction s as [|c s IH]; [now left|]. simpl.
  destruct (Char.is_space c) eqn:E; [exact IH|].
  right. exists c, s. split; [reflexivity | exact E].
Qed.

Lemma lstrip_no_lead (c : ascii) (r : string) :
  Char.is_space c = false -> Str.lstrip (String c r) = String c r.
Proof. intros E. simpl. rewrite E. reflexivity. Qed.

Lemma rstrip_head (c : ascii) (r : string) :
  Char.is_space c = false -> exists r', Str.rstrip (String c r) = String c r'.
Proof.
  intros E. simpl. destruct (Str.rstrip r).
  - rewrite E. eauto.
  - eauto.
Qed.

Lemma rstrip_cons (c : ascii) (r : string) :
  Str.rstrip (String c r)
  = match Str.rstrip r with
    | "" => if Char.is_space c then "" else String c ""
    | r' => String c r'
    end.
Proof. reflexivity. Qed.

Lemma rstrip_idem (s : string) : Str.rstrip (Str.rstrip s) = Str.rstrip s.
Proof.
  induction s as [|c s IH]; [reflexivity|]. rewrite rstrip_cons.
  destruct (Str.rstrip s) as [|a t] eqn:E.
  - destruct (Char.is_space c) eqn:Ec; [reflexivity|].
    rewrite rstrip_cons. simpl. rewrite Ec. reflexivity.
  - rewrite rstrip_cons, IH. reflexivity.
Qed.

(** [s.strip().strip() == s.strip()] *)
Lemma strip_idem (s : string) : Str.strip (Str.strip s) = Str.strip s.
Proof.
  unfold Str.strip.
  destruct (lstrip_head s) as [-> | (c & r & -> & E)]; [reflexivity|].
  destruct (rstrip_head c r E) as (r' & R).
  rewrite R, (lstrip_no_lead _ _ E), <- R. apply rstrip_idem.
Qed.

Lemma all_chars_lstrip (p : ascii -> bool) (s : string) :
  Spec.all_chars p s = true -> Spec.all_chars p (Str.lstrip s) = true.
Proof.
  induction s as [|c s IH]; [reflexivity|]. intros H. simpl.
  destruct (Char.is_space c); [|exact H].
  simpl in H. apply andb_true_iff in H as [_ H]. apply IH, H.
Qed.

Lemma all_chars_rstrip (p : ascii -> bool) (s : string) :
  Spec.all_chars p s = true -> Spec.all_chars p (Str.rstrip s) = true.
Proof.
  induction s as [|c s IH]; [reflexivity|]. intros H. simpl in *.
  apply andb_true_iff in H as [Hc Hs]. specialize (IH Hs).
  destruct (Str.rstrip s).
  - destruct (Char.is_space c); [reflexivity|]. simpl. rewrite Hc. reflexivity.
  - simpl in *. rewrite Hc. exact IH.
Qed.

Lemma all_chars_strip (p : ascii -> bool) (s : string) :
  Spec.all_chars p s = true -> Spec.all_chars p (Str.strip s) = true.
Proof. intros H. apply all_chars_rstrip, all_chars_lstrip, H. Qed.

Lemma all_chars_rev_app (p : ascii -> bool) (a b : string) :
  Spec.all_chars p (String.rev_app a b)
  = Spec.all_chars p a && Spec.all_chars p b.
Proof.
  revert b. induction a as [|c a IH]; intros b; [reflexivity|].
  simpl. rewrite IH. simpl.
  destruct (p c), (Spec.all_chars p a), (Spec.all_chars p b); reflexivity.
Qed.

Lemma all_chars_rev (p : ascii -> bool) (a : string) :
  Spec.all_chars p (String.rev a) = Spec.all_chars p a.
Proof. unfold String.rev. rewrite all_chars_rev_app. apply andb_true_r. Qed.

Lemma rev_app_nonempty (a b : string) :
  b <> "" -> String.rev_app a b <> "".
Proof.
  revert b. induction a as [|c a IH]; intros b H; [exact H|].
  simpl. apply IH. discriminate.
Qed.

Lemma rev_nonempty (a : string) : a <> "" -> String.rev a <> "".
Proof.
  destruct a as [|c a]; [congruence|]. intros _.
  unfold String.rev. simpl. apply rev_app_nonempty. discriminate.
Qed.

End Trimming.

(** ** What [re.findall] returns *)

Section Findall.

Lemma findall_go_matches (s : string) :
  Forall bracket_match (Re.findall_brackets_go None s) /\
  forall acc, lacks "]" acc = true ->
              Forall bracket_match (Re.findall_brackets_go (Some acc) s).
Proof.
  induction s as [|c s [IHn IHs]]; [split; intros; constructor|].
  split.
  - simpl. destruct (Ascii.eqb c "["); [apply IHs; reflexivity | exact IHn].
  - intros acc L. simpl. destruct (Ascii.eqb c "]") eqn:E.
    + destruct acc as [|a acc]; [exact IHn|].
      constructor; [|exact IHn]. split.
      * apply rev_nonempty. discriminate.
      * unfold lacks in *. rewrite all_chars_rev. exact L.
    + apply IHs. unfold lacks in *. simpl. rewrite E. exact L.
Qed.

Lemma findall_lacks_open (s : string) :
  lacks "[" s = true -> Re.findall_brackets s = [].
Proof.
  unfold Re.findall_brackets, lacks.
  induction s as [|c s IH]; [reflexivity|]. simpl. intros H.
  apply andb_true_iff in H as [Hc Hs].
  destruct (Ascii.eqb c "["); [discriminate | apply IH, Hs].
Qed.

End Findall.

Section FindallSpans.

Lemma rev_app_app (a b x : string) :
  String.rev_app a b +:+ x = String.rev_app a (b +:+ x).
Proof.
  revert b. induction a as [|c a IH]; intros b; [reflexivity|].
  simpl. rewrite IH. reflexivity.
Qed.

Lemma rev_snoc (c : ascii) (acc x : string) :
  String.rev (String c acc) +:+ x = String.rev acc +:+ String c x.
Proof. unfold String.rev. simpl. rewrite !rev_app_app. reflexivity. Qed.

Lemma span_in_cons (c : ascii) (s m : string) :
  span_in s m -> span_in (String c s) m.
Proof. intros (a & b & ->). exists (String c a), b. reflexivity. Qed.

Lemma findall_go_spans (s : string) :
  Forall (span_in s) (Re.findall_brackets_go None s) /\
  forall acc,
    Forall (fun m => span_closes acc s m \/ span_in s m)
           (Re.findall_brackets_go (Some acc) s).
Proof.
  induction s as [|c s [IHn IHs]]; [split; intros; constructor|].
  assert (Hn : Forall (span_in (String c s)) (Re.findall_brackets_go None s)).
  { eapply Forall_impl; [exact IHn|]. intros m. apply span_in_cons. }
  split.
  - simpl. destruct (Ascii.eqb c "[") eqn:E; [|exact Hn].
    apply Ascii.eqb_eq in E. subst c.
    eapply Forall_impl; [exact (IHs "")|].
    intros m [(x & b & -> & ->) | H]; [|apply span_in_cons, H].
    exists "", b. reflexivity.
  - intros acc. simpl. destruct (Ascii.eqb c "]") eqn:E.
    + apply Ascii.eqb_eq in E. subst c.
      assert (Hr : Forall (fun m => span_closes acc (String "]" s) m \/
                                    span_in (String "]" s) m)
                          (Re.findall_brackets_go None s)).
      { eapply Forall_impl; [exact Hn|]. intros m H. now right. }
      destruct acc as [|a acc]; [exact Hr|].
      constructor; [|exact Hr]. left. exists "", s. split; [|reflexivity].
      generalize (String.rev (String a acc)).
      intros t. induction t as [|d t IH]; [reflexivity|].
      rewrite app_cons, <- IH. reflexivity.
    + eapply Forall_impl; [exact (IHs (String c acc))|].
      intros m [(x & b & -> & ->) | H]; [|right; apply span_in_cons, H].
      left. exists (String c x), b. split; [apply rev_snoc | reflexivity].
Qed.

End FindallSpans.

(** ** More on [extract_keywords] *)

Section KeywordFacts.

Variable text : string.

Lemma known_step_confirmed (ks : list string) (kw : string) :
  known_step text ks kw = ks \/
  (known_step text ks kw = ks ++ [kw] /\ ~ In kw ks /\
   Re.search_keyword kw text = true /\
   Str.contains (Str.lower kw) (Str.lower text) = true).
Proof.
  unfold known_step.
  destruct (Str.contains _ _) eqn:C; simpl; [|now left].
  destruct (Str.mem kw ks) eqn:M; simpl; [now left|].
  destruct (Re.search_keyword kw text) eqn:S; [|now left].
  right. repeat split; try reflexivity. apply mem_false, M.
Qed.

(** The second loop appends a duplicate-free selection of the names,
    in their order, each confirmed and new to the list. *)
Lemma known_loop_shape (kws ks : list string) :
  exists l,
    known_loop text kws ks = ks ++ l /\
    sublist l kws /\ List.NoDup l /\
    forall x, In x l ->
      ~ In x ks /\ Re.search_keyword x text = true /\
      Str.contains (Str.lower x) (Str.lower text) = true.
Proof.
  revert ks. induction kws as [|kw kws IH]; intros ks.
  - exists []. split; [symmetry; apply app_nil_r|].
    split; [constructor|]. split; [constructor | intros x []].
  - simpl.
    destruct (known_step_confirmed ks kw) as [E | (E & N & S & C)]; rewrite E.
    + destruct (IH ks) as (l & -> & Hs & Hd & Hl). exists l.
      split; [reflexivity|]. split; [apply sublist_cons, Hs|].
      split; assumption.
    + destruct (IH (ks ++ [kw])) as (l & -> & Hs & Hd & Hl). exists (kw :: l).
      split; [rewrite <- app_assoc; reflexivity|].
      split; [apply sublist_skip, Hs|]. split.
      * constructor; [|exact Hd]. intros I. destruct (Hl kw I) as [N' _].
        apply N', in_or_app. right. now left.
      * intros x [<- | I]; [repeat split; assumption|].
        destruct (Hl x I) as (N' & S' & C'). repeat split; try assumption.
        intros J. apply N', in_or_app. now left.
Qed.

Lemma search_lacks (kw s : string) :
  lacks "[" s = true -> lacks "(" s = true ->
  Re.search_keyword kw s = false.
Proof.
  unfold lacks. induction s as [|c s IH]; [reflexivity|].
  intros H1 H2. simpl in H1, H2.
  apply andb_true_iff in H1 as [A1 B1]. apply andb_true_iff in H2 as [A2 B2].
  cbn [Re.search_keyword]. rewrite (IH B1 B2), orb_false_r.
  unfold Re.match_keyword_here.
  destruct (Ascii.eqb c "["); [discriminate|].
  destruct (Ascii.eqb c "("); [discriminate|]. reflexivity.
Qed.

End KeywordFacts.

Lemma bracket_loop_origin (ms ks : list string) (k : string) :
  In k (bracket_loop ms ks) ->
  In k ks \/
  exists m, In m ms /\ k = Str.strip m /\ Re.sub_num_suffix k <> "".
Proof.
  revert ks. induction ms as [|m ms IH]; intros ks H; [now left|].
  change (bracket_loop (m :: ms) ks)
    with (bracket_loop ms (bracket_step ks m)) in H.
  destruct (IH _ H) as [I | (m' & I & E & B)].
  - unfold bracket_step in I.
    destruct (Str.truthy _) eqn:T; simpl in I; [|now left].
    destruct (Str.mem _ ks); simpl in I; [now left|].
    apply in_app_or in I as [I | [<- | []]]; [now left|].
    right. exists m. split; [now left|]. split; [reflexivity|].
    apply truthy_true, T.
  - right. exists m'. split; [now right|]. split; assumption.
Qed.

Lemma known_keywords_trimmed : Forall trimmed known_keywords.
Proof.
  assert (H : forallb (fun k => Str.truthy k && String.eqb (Str.strip k) k)
                      known_keywords = true) by (vm_compute; reflexivity).
  rewrite forallb_forall in H. apply List.Forall_forall. intros k I.
  specialize (H k I). apply andb_true_iff in H as [T E].
  split; [apply truthy_true, T | apply String.eqb_eq, E].
Qed.

Lemma extract_keywords_shape (text : string) :
  exists l,
    extract_keywords text = bracket_scan text ++ l /\
    sublist l known_keywords /\ List.NoDup l /\
    forall x, In x l ->
      ~ In x (bracket_scan text) /\ Re.search_keyword x text = true /\
      Str.contains (Str.lower x) (Str.lower text) = true.
Proof. unfold extract_keywords. apply known_loop_shape. Qed.

Lemma sublist_In (l1 l2 : list string) (x : string) :
  sublist l1 l2 -> In x l1 -> In x l2.
Proof.
  intros S I. apply list_elem_of_In.
  eapply elem_of_sublist; [apply list_elem_of_In, I | exact S].
Qed.

(** X1: every group captured by the bracket pattern is non-empty,
    holds no ']' and stands between '[' and ']' in the text. *)
Theorem findall_brackets_spans (text : string) :
  Forall (fun m => m <> "" /\ lacks "]" m = true /\ span_in text m)
         (Re.findall_brackets text).
Proof.
  unfold Re.findall_brackets.
  pose proof (proj1 (findall_go_matches text)) as A.
  pose proof (proj1 (findall_go_spans text)) as B.
  induction (Re.findall_brackets_go None text) as [|m l IH]; [constructor|].
  apply Forall_cons in A as [[A1 A2] A], B as [B1 B].
  constructor; [repeat split; assumption | apply IH; assumption].
Qed.

(** X2: every keyword returned is non-empty and carries no
    surrounding white space. *)
Theorem extract_keywords_trimmed (text : string) :
  Forall trimmed (extract_keywords text).
Proof.
  destruct (extract_keywords_shape text) as (l & -> & Hs & _ & _).
  apply Forall_app. split.
  - apply List.Forall_forall. intros k H.
    apply bracket_loop_origin in H as [[] | (m & _ & -> & B)].
    split; [|apply strip_idem].
    intros Z. rewrite Z in B. apply B. reflexivity.
  - apply List.Forall_forall. intros k H.
    pose proof known_keywords_trimmed as T.
    rewrite List.Forall_forall in T. apply T, (sublist_In _ _ _ Hs H).
Qed.

(** X3: a text without '[' leaves the bracket scan empty, and a text
    with neither '[' nor '(' has no keyword at all, whatever names it
    mentions. *)
Theorem extract_keywords_needs_delimiter (text : string) :
  lacks "[" text = true ->
  bracket_scan text = [] /\
  (lacks "(" text = true -> extract_keywords text = []).
Proof.
  intros H1.
  assert (B : bracket_scan text = []).
  { unfold bracket_scan. rewrite (findall_lacks_open _ H1). reflexivity. }
  split; [exact B|]. intros H2.
  destruct (extract_keywords_shape text) as (l & -> & _ & _ & Hl).
  rewrite B. destruct l as [|x l]; [reflexivity|].
  destruct (Hl x (or_introl eq_refl)) as (_ & S & _).
  rewrite (search_lacks x text H1 H2) in S. discriminate S.
Qed.

Lemma extract_keywords_needs_delimiter_witness :
  extract_keywords "Play a unit with Assault and Quick Attack." = [].
Proof.
  destruct (extract_keywords_needs_delimiter
              "Play a unit with Assault and Quick Attack." eq_refl) as [_ H].
  apply H. reflexivity.
Defined.

(** X4: a returned keyword is either the trimmed text of a bracketed
    span whose base name is non-empty, or a known name that the text
    holds in lower case and that the confirmation pattern finds. *)
Theorem extract_keywords_origin (text k : string) :
  In k (extract_keywords text) ->
  (exists m, In m (Re.findall_brackets text) /\ k = Str.strip m /\
             Re.sub_num_suffix k <> "") \/
  (In k known_keywords /\ Re.search_keyword k text = true /\
   Str.contains (Str.lower k) (Str.lower text) = true).
Proof.
  destruct (extract_keywords_shape text) as (l & -> & Hs & _ & Hl).
  intros H. apply in_app_or in H as [H | H].
  - left. apply bracket_loop_origin in H as [[] | H]. exact H.
  - right. destruct (Hl k H) as (_ & S & C). split; [|split; assumption].
    apply (sublist_In _ _ _ Hs H).
Qed.

Lemma extract_keywords_origin_witness :
  In "Play" known_keywords /\
  Re.search_keyword "Play" "[Deep] (playing" = true.
Proof.
  destruct (extract_keywords_origin "[Deep] (playing" "Play")
    as [(m & I & E & _) | (K & S & _)].
  - vm_compute. tauto.
  - exfalso. vm_compute in I. destruct I as [<- | []]. discriminate E.
  - split; assumption.
Defined.

(** X5: the result is the bracket scan followed by known names in the
    order of the fixed list, without repetition among them and none of
    them already in the bracket scan. *)
Theorem extract_keywords_order (text : string) :
  exists l,
    extract_keywords text = bracket_scan text ++ l /\
    sublist l known_keywords /\
    List.NoDup l /\
    forall k, In k l -> ~ In k (bracket_scan text).
Proof.
  destruct (extract_keywords_shape text) as (l & E & Hs & Hd & Hl).
  exists l. repeat split; try assumption.
  intros k I. apply (Hl k I).
Qed.

(** X6: an entry that is its own base name (it has no numeric suffix)
    occurs at most once in the result; repetitions are confined to
    numbered entries. *)
Theorem extract_keywords_plain_once (text k : string) :
  Re.sub_num_suffix k = k ->
  count_occ string_dec (extract_keywords text) k <= 1.
Proof.
  intros B. apply known_loop_once, bracket_loop_once; [exact B|].
  unfold at_most_once. simpl. lia.
Qed.

Lemma extract_keywords_plain_once_witness :
  count_occ string_dec
    (extract_keywords "[Assault] [Assault 2] [Assault] (Assault)") "Assault"
  <= 1.
Proof. apply extract_keywords_plain_once. reflexivity. Defined.

(** ** More on the fields of a record *)

Section MoreRowFacts.

Variable row : gmap string string.

(** The fields that [parse_csv_row_Some] leaves out. *)
Lemma parse_csv_row_more (card : CardRecord) :
  parse_csv_row row = Ok (Some card) ->
  rarity card = Str.lower (Str.strip (get row "Rarity")) /\
  raw (rules_text card) = Str.strip (get row "Description") /\
  type_line card =
    (let subtypes := fold_left (subtype_step row) (seq 1 5) [] in
     match subtypes with
     | [] => card_type_of row
     | _ => card_type_of row +:+ " - " +:+ Str.join ", " subtypes
     end).
Proof.
  unfold parse_csv_row.
  destruct (Str.truthy (Str.strip (get row "Name"))); simpl; [|discriminate].
  destruct (Str.truthy (Str.strip (get row "Collector Number")));
    simpl; [|discriminate].
  rewrite !parse_stat_spec, parse_power_spec.
  unfold mbind, result_bind, rbind.
  intros H. injection H as <-. simpl. repeat split.
Qed.

Lemma card_type_of_nonempty : card_type_of row <> "".
Proof.
  unfold card_type_of.
  destruct (Str.truthy _) eqn:T; simpl; [apply truthy_true, T | discriminate].
Qed.

Lemma card_type_of_lower : Str.lower (card_type_of row) = card_type_of row.
Proof.
  unfold card_type_of.
  destruct (Str.truthy _); simpl; [apply lower_idem | reflexivity].
Qed.

Lemma subtypes_lower (l : list nat) (acc : list string) :
  Forall (fun s => s <> "" /\ Str.lower s = s) acc ->
  Forall (fun s => s <> "" /\ Str.lower s = s)
         (fold_left (subtype_step row) l acc).
Proof.
  revert acc. induction l as [|i l IH]; intros acc H; [exact H|].
  simpl. apply IH. unfold subtype_step.
  destruct (Str.truthy _) eqn:T; simpl; [|exact H].
  destruct (not_blank_nan _); [|exact H].
  apply Forall_app. split; [exact H|]. constructor; [|constructor].
  split; [|apply lower_idem].
  apply truthy_true in T. intros Z. apply T.
  destruct (Str.strip (get row (subtype_key i))); [reflexivity | discriminate Z].
Qed.

Lemma subtypes_blank (l : list nat) (acc : list string) :
  (forall i, In i l -> Str.strip (get row (subtype_key i)) = "") ->
  fold_left (subtype_step row) l acc = acc.
Proof.
  revert acc. induction l as [|i l IH]; intros acc H; [reflexivity|].
  simpl. unfold subtype_step at 2. rewrite (H i (or_introl eq_refl)). simpl.
  apply IH. intros j J. apply H. now right.
Qed.

End MoreRowFacts.

Section JoinFacts.

Lemma join_cons2 (sep x y : string) (l : list string) :
  Str.join sep (x :: y :: l) = x +:+ sep +:+ Str.join sep (y :: l).
Proof. reflexivity. Qed.

Lemma lower_join (sep : string) (l : list string) :
  Str.lower sep = sep ->
  Forall (fun s => s <> "" /\ Str.lower s = s) l ->
  Str.lower (Str.join sep l) = Str.join sep l.
Proof.
  intros Hs H. induction H as [|x l [_ Hx] Hl IH]; [reflexivity|].
  destruct l as [|y l]; [exact Hx|].
  rewrite join_cons2, !lower_app, Hx, Hs, IH. reflexivity.
Qed.

Lemma startswith_refl_app (a b : string) : Str.startswith (a +:+ b) a = true.
Proof. apply startswith_app. Qed.

Lemma app_nonempty_l (a b : string) : a <> "" -> a +:+ b <> "".
Proof. destruct a; [congruence | discriminate]. Qed.

Lemma startswith_self (a : string) : Str.startswith a a = true.
Proof.
  induction a as [|c a IH]; [reflexivity|].
  simpl. rewrite Ascii.eqb_refl. exact IH.
Qed.

End JoinFacts.

(** X7: the type line of a record is never empty, is in lower case
    and begins with the primary type, which is "unit" when the types
    field is blank; when the five subtype fields are blank it is the
    primary type alone. *)
Theorem type_line_shape (row : gmap string string) (card : CardRecord) :
  parse_csv_row row = Ok (Some card) ->
  type_line card <> "" /\
  Str.lower (type_line card) = type_line card /\
  Str.startswith (type_line card) (card_type_of row) = true /\
  (Str.strip (get row "types") = "" -> card_type_of row = "unit") /\
  ((forall i, In i (seq 1 5) -> Str.strip (get row (subtype_key i)) = "") ->
   type_line card = card_type_of row).
Proof.
  intros H. destruct (parse_csv_row_more row card H) as (_ & _ & ->).
  pose proof (card_type_of_nonempty row) as N.
  pose proof (card_type_of_lower row) as L.
  pose proof (subtypes_lower row (seq 1 5) [] (List.Forall_nil _)) as S.
  cbv zeta. split; [|split; [|split; [|split]]].
  - destruct (fold_left _ _ _); [exact N | apply app_nonempty_l, N].
  - destruct (fold_left _ _ _) as [|x l] eqn:E; [exact L|].
    rewrite !lower_app, L, (lower_join ", " (x :: l) eq_refl S). reflexivity.
  - destruct (fold_left _ _ _); [apply startswith_self | apply startswith_app].
  - intros E. unfold card_type_of. rewrite E. reflexivity.
  - intros B. rewrite (subtypes_blank row _ _ B). reflexivity.
Qed.

Lemma type_line_shape_witness :
  exists card,
    parse_csv_row sample_row = Ok (Some card) /\ type_line card = "unit".
Proof.
  eexists. split; [vm_compute; reflexivity|].
  match goal with
  | |- type_line ?c = _ =>
      destruct (type_line_shape sample_row c) as (_ & _ & _ & U & B)
  end.
  - vm_compute. reflexivity.
  - rewrite B.
    + apply U. reflexivity.
    + intros i I. simpl in I.
      repeat (destruct I as [<- | I]; [reflexivity|]). destruct I.
Defined.

Section TagFacts.

Lemma split_go_lacks (c : ascii) (cur s : string) :
  lacks c cur = true ->
  Forall (fun t => lacks c t = true) (Str.split_go c cur s).
Proof.
  revert cur. induction s as [|a s IH]; intros cur H; simpl.
  - constructor; [|constructor]. unfold lacks in *.
    rewrite all_chars_rev. exact H.
  - destruct (Ascii.eqb a c) eqn:E.
    + constructor; [|apply IH; reflexivity]. unfold lacks in *.
      rewrite all_chars_rev. exact H.
    + apply IH. unfold lacks in *. simpl. rewrite E. exact H.
Qed.

Lemma split_tags_shape (tags : string) :
  Forall (fun t => trimmed t /\ lacks "," t = true) (split_tags tags).
Proof.
  unfold split_tags, Str.split.
  pose proof (split_go_lacks "," "" tags eq_refl) as H.
  induction H as [|t l Ht Hl IH]; [constructor|]. simpl.
  destruct (Str.truthy (Str.strip t)) eqn:T; [|exact IH].
  simpl. constructor; [|exact IH]. split.
  - split; [apply truthy_true, T | apply strip_idem].
  - apply all_chars_strip, Ht.
Qed.

Lemma not_blank_nan_lower (s : string) :
  Str.truthy s && not_blank_nan (Str.lower s) = false <->
  s = "" \/ Str.lower s = "nan".
Proof.
  unfold not_blank_nan. rewrite mem_two, truthy_eqb. split.
  - destruct (String.eqb s "") eqn:E1; [left; apply String.eqb_eq, E1|].
    destruct (String.eqb (Str.lower s) "nan") eqn:E2;
      [right; apply String.eqb_eq, E2|].
    destruct s; [discriminate E1 | discriminate].
  - intros [-> | ->]; [reflexivity | apply andb_false_r].
Qed.

End TagFacts.

(** X8: the [tags] key is left out exactly when the trimmed Tags
    field is empty or is "nan" in any letter case; when it is there,
    every tag is non-empty, has no surrounding white space and holds
    no comma. *)
Theorem tags_shape (row : gmap string string) (card : CardRecord) :
  parse_csv_row row = Ok (Some card) ->
  let t := Str.strip (get row "Tags") in
  (tags card = None <-> t = "" \/ Str.lower t = "nan") /\
  (forall ts, tags card = Some ts ->
     Forall (fun x => trimmed x /\ lacks "," x = true) ts).
Proof.
  intros H t.
  destruct (parse_csv_row_Some row card H)
    as (_ & _ & _ & _ & _ & _ & _ & _ & _ & _ & -> & _).
  cbv zeta. fold t. rewrite <- not_blank_nan_lower.
  destruct (Str.truthy t && not_blank_nan (Str.lower t)); split.
  - split; discriminate.
  - intros ts E. injection E as <-. apply split_tags_shape.
  - split; reflexivity.
  - discriminate.
Qed.

Lemma tags_shape_witness :
  exists card,
    parse_csv_row tagged_row = Ok (Some card) /\
    tags card = Some ["Ionia"; "Elite"] /\
    Forall (fun x => trimmed x /\ lacks "," x = true) ["Ionia"; "Elite"].
Proof.
  eexists. split; [vm_compute; reflexivity|]. split; [reflexivity|].
  match goal with
  | |- Forall _ ?ts =>
      eapply (proj2 (tags_shape tagged_row _ ltac:(vm_compute; reflexivity)) ts)
  end.
  reflexivity.
Defined.

(** X9: [rarity] is in lower case; the [supertypes] key is left out
    exactly when the trimmed field is empty or "nan" in any letter
    case, and a value that is there is in lower case, non-empty and
    not "nan". *)
Theorem rarity_supertypes_lower (row : gmap string string) (card : CardRecord) :
  parse_csv_row row = Ok (Some card) ->
  let s := Str.strip (get row "supertypes") in
  Str.lower (rarity card) = rarity card /\
  (supertypes card = None <-> s = "" \/ Str.lower s = "nan") /\
  (forall v, supertypes card = Some v ->
     v = Str.lower s /\ Str.lower v = v /\ v <> "" /\ v <> "nan").
Proof.
  intros H s.
  destruct (parse_csv_row_Some row card H)
    as (_ & _ & _ & _ & _ & _ & _ & _ & _ & -> & _).
  destruct (parse_csv_row_more row card H) as (-> & _).
  split; [apply lower_idem|]. cbv zeta. fold s.
  pose proof (not_blank_nan_lower s) as B.
  destruct (Str.truthy s && not_blank_nan (Str.lower s)); split.
  - split; [discriminate|]. intros C. apply B in C. discriminate C.
  - intros v E. injection E as <-. split; [reflexivity|].
    split; [apply lower_idem|].
    split; intros Z; assert (C : s = "" \/ Str.lower s = "nan").
    + left. destruct s; [reflexivity | discriminate Z].
    + apply B in C. discriminate C.
    + now right.
    + apply B in C. discriminate C.
  - split; [intros _; apply B; reflexivity | reflexivity].
  - discriminate.
Qed.

Lemma rarity_supertypes_lower_witness :
  exists card,
    parse_csv_row basic_row = Ok (Some card) /\
    rarity card = "common" /\ supertypes card = Some "basic" /\
    Str.lower "basic" = "basic".
Proof.
  eexists. split; [vm_compute; reflexivity|].
  split; [reflexivity|]. split; [reflexivity|].
  match goal with
  | |- Str.lower ?v = _ =>
      apply (proj2 (proj2 (rarity_supertypes_lower basic_row _
                             ltac:(vm_compute; reflexivity))) v)
  end.
  reflexivity.
Defined.

(** X10: the [id], the [name] and the raw rules text of a record have
    no surrounding white space, and the keyword list is the one
    extracted from that raw text. *)
Theorem record_text_trimmed (row : gmap string string) (card : CardRecord) :
  parse_csv_row row = Ok (Some card) ->
  trimmed (id card) /\ trimmed (name card) /\
  Str.strip (raw (rules_text card)) = raw (rules_text card) /\
  keywords (rules_text card) = extract_keywords (raw (rules_text card)).
Proof.
  intros H.
  destruct (parse_csv_row_Some row card H)
    as (N & I & -> & -> & _ & _ & _ & _ & -> & _).
  destruct (parse_csv_row_more row card H) as (_ & -> & _).
  repeat split; try assumption; apply strip_idem.
Qed.

Lemma record_text_trimmed_witness :
  exists card,
    parse_csv_row sample_row = Ok (Some card) /\
    trimmed (name card) /\ name card = "Blazing Scorcher".
Proof.
  eexists. split; [vm_compute; reflexivity|]. split; [|reflexivity].
  match goal with
  | |- trimmed (name ?c) =>
      apply (record_text_trimmed sample_row c)
  end.
  vm_compute. reflexivity.
Defined.

(** ** Strings kept as power *)

Section PowerStrings.

Lemma all_chars_impl (p q : ascii -> bool) (s : string) :
  (forall c, p c = true -> q c = true) ->
  Spec.all_chars p s = true -> Spec.all_chars q s = true.
Proof.
  intros I. induction s as [|c s IH]; [reflexivity|]. simpl. intros H.
  apply andb_true_iff in H as [Hc Hs]. rewrite (I c Hc), (IH Hs). reflexivity.
Qed.

(** [float] rejects a run of 'C'. *)
Lemma float_all_C (s : string) :
  Spec.all_C s = true -> Float.float s = Raise ValueError.
Proof.
  unfold Spec.all_C. intros H. apply andb_true_iff in H as [_ A].
  assert (S : Str.strip s = s).
  { apply strip_no_space. revert A. apply all_chars_impl.
    intros c E. apply Ascii.eqb_eq in E. subst c. reflexivity. }
  unfold Float.float. rewrite S.
  destruct s as [|c r]; [reflexivity|]. cbn [Spec.all_chars] in A.
  apply andb_true_iff in A as [E _]. apply Ascii.eqb_eq in E. subst c.
  reflexivity.
Qed.

End PowerStrings.

(** X11: a power kept as a string is never empty, never "-" and never
    a string that [float] accepts: whatever parses as a number is
    stored as a number. *)
Theorem power_string_not_numeric
  (row : gmap string string) (card : CardRecord) (s : string) :
  parse_csv_row row = Ok (Some card) ->
  power (stats card) = Some (PowerStr s) ->
  s <> "" /\ s <> "-" /\ Float.float s = Raise ValueError.
Proof.
  intros H.
  destruct (parse_csv_row_Some row card H)
    as (_ & _ & _ & _ & _ & _ & _ & -> & _).
  unfold Spec.power. set (p := Str.strip (get row "Power")).
  destruct (String.eqb p "") eqn:E1; simpl; [discriminate|].
  destruct (String.eqb p "-") eqn:E2; simpl; [discriminate|].
  apply String.eqb_neq in E1, E2.
  destruct (Spec.all_C (Str.upper p)) eqn:A.
  - intros E. injection E as <-. split; [|split].
    + rewrite upper_empty. exact E1.
    + intros Z. rewrite Z in A. discriminate A.
    + apply float_all_C, A.
  - destruct (Float.float p) as [f | []] eqn:F; [discriminate|].
    intros E. injection E as <-. repeat split; assumption.
Qed.

Lemma power_string_not_numeric_witness :
  exists card,
    parse_csv_row sample_row = Ok (Some card) /\
    power (stats card) = Some (PowerStr "CC") /\
    Float.float "CC" = Raise ValueError.
Proof.
  eexists. split; [vm_compute; reflexivity|]. split; [reflexivity|].
  eapply (power_string_not_numeric sample_row _ "CC").
  - vm_compute. reflexivity.
  - reflexivity.
Defined.

(** ** More on the image index *)

Section IndexFacts.

Lemma absolute_url_shape (u : string) :
  u <> "" ->
  absolute_url u <> "" /\ Str.startswith (absolute_url u) "/" = false.
Proof.
  intros N. unfold absolute_url.
  destruct (Str.startswith u "/") eqn:E.
  - split; [discriminate | reflexivity].
  - split; assumption.
Qed.

Lemma load_images_step_entries (images row : gmap string string) :
  (forall n u, images !! n = Some u -> index_entry n u) ->
  forall n u, load_images_step images row !! n = Some u -> index_entry n u.
Proof.
  intros H n u. unfold load_images_step.
  destruct (Str.truthy (Str.strip (get row "Name"))) eqn:T1; simpl;
    [|apply H].
  destruct (Str.truthy (Str.strip (get row "Card Image URL"))) eqn:T2;
    [|apply H].
  rewrite lookup_insert. case_decide as D; [|apply H].
  intros E. injection E as <-. subst n.
  apply truthy_true in T1, T2.
  split; [split; [exact T1 | apply strip_idem]|].
  apply absolute_url_shape, T2.
Qed.

Lemma load_images_fold_entries (rows : list (gmap string string))
  (images : gmap string string) :
  (forall n u, images !! n = Some u -> index_entry n u) ->
  forall n u,
    fold_left load_images_step rows images !! n = Some u -> index_entry n u.
Proof.
  revert images. induction rows as [|r rows IH]; intros images H; [exact H|].
  simpl. apply IH, load_images_step_entries, H.
Qed.

Lemma load_images_fold_union (rows : list (gmap string string))
  (images : gmap string string) :
  fold_left load_images_step rows images = load_images rows ∪ images.
Proof.
  unfold load_images. revert images.
  induction rows as [|r rows IH]; intros images.
  - simpl. symmetry. apply (left_id_L ∅ (∪)).
  - simpl. rewrite IH, (IH (load_images_step ∅ r)).
    rewrite <- (assoc_L (∪)). f_equal.
    unfold load_images_step.
    destruct (_ && _); [|symmetry; apply (left_id_L ∅ (∪))].
    rewrite !insert_union_singleton_l, (right_id_L ∅ (∪)). reflexivity.
Qed.

Lemma load_images_fold_key (rows : list (gmap string string))
  (images : gmap string string) (n : string) :
  is_Some (fold_left load_images_step rows images !! n) <->
  is_Some (images !! n) \/ (n <> "" /\ exists r, In r rows /\ writes r n).
Proof.
  revert images. induction rows as [|r rows IH]; intros images.
  - simpl. split; [now left | intros [H | (_ & r & [] & _)]; exact H].
  - simpl. rewrite IH. split.
    + intros [H | (N & r' & I & W)].
      * unfold load_images_step in H.
        destruct (Str.truthy (Str.strip (get r "Name"))) eqn:T1; simpl in H;
          [|now left].
        destruct (Str.truthy (Str.strip (get r "Card Image URL"))) eqn:T2;
          [|now left].
        rewrite lookup_insert in H. case_decide as D; [|now left].
        right. apply truthy_true in T1, T2. subst n.
        split; [exact T1|]. exists r. split; [now left | split; [reflexivity | exact T2]].
      * right. split; [exact N|]. exists r'. split; [now right | exact W].
    + intros [H | (N & r' & [<- | I] & W)].
      * left. unfold load_images_step. destruct (_ && _); [|exact H].
        rewrite lookup_insert. case_decide; [eauto | exact H].
      * left. destruct W as [<- W].
        apply truthy_true in N, W.
        unfold load_images_step. rewrite N, W. simpl.
        rewrite lookup_insert_eq. eauto.
      * right. split; [exact N|]. exists r'. split; assumption.
Qed.

End IndexFacts.

(** X12: every entry of the image index has a non-empty name without
    surrounding white space and a non-empty URL that does not begin
    with '/'; making such a URL absolute again changes nothing. *)
Theorem load_images_entries (rows : list (gmap string string)) (n u : string) :
  load_images rows !! n = Some u ->
  trimmed n /\ u <> "" /\ Str.startswith u "/" = false /\
  absolute_url u = u.
Proof.
  intros H.
  assert (E : index_entry n u).
  { apply (load_images_fold_entries rows ∅); [|exact H].
    intros n' u' L. rewrite lookup_empty in L. discriminate L. }
  destruct E as (T & N & S). repeat split; try assumption; try apply T.
  unfold absolute_url. rewrite S. reflexivity.
Qed.

Lemma load_images_entries_witness :
  trimmed "Blazing Scorcher" /\
  "https://riftdecks.com/img/foo.png" <> "" /\
  Str.startswith "https://riftdecks.com/img/foo.png" "/" = false /\
  absolute_url "https://riftdecks.com/img/foo.png"
    = "https://riftdecks.com/img/foo.png".
Proof.
  apply (load_images_entries image_rows_sample). vm_compute. reflexivity.
Defined.

(** X13: a name is a key of the image index exactly when it is
    non-empty and some row has it as trimmed Name together with a
    non-empty trimmed URL. *)
Theorem load_images_keys (rows : list (gmap string string)) (n : string) :
  is_Some (load_images rows !! n) <->
  n <> "" /\ exists r, In r rows /\ writes r n.
Proof.
  unfold load_images. rewrite load_images_fold_key. split.
  - intros [H | H]; [|exact H]. rewrite lookup_empty in H.
    destruct H as [x H]. discriminate H.
  - intros H. now right.
Qed.

(** X14: the index of two lists of rows read one after the other is
    the index of the second completed by the index of the first: on a
    name that both assign, the second decides. *)
Theorem load_images_app (rows1 rows2 : list (gmap string string)) :
  load_images (rows1 ++ rows2) = load_images rows2 ∪ load_images rows1 /\
  forall n,
    load_images (rows1 ++ rows2) !! n =
    match load_images rows2 !! n with
    | Some u => Some u
    | None => load_images rows1 !! n
    end.
Proof.
  assert (E : load_images (rows1 ++ rows2)
              = load_images rows2 ∪ load_images rows1).
  { unfold load_images at 1. rewrite fold_left_app.
    apply load_images_fold_union. }
  split; [exact E|]. intros n. rewrite E, lookup_union.
  destruct (load_images rows2 !! n), (load_images rows1 !! n); reflexivity.
Qed.

(** ** More on the loop of [main] *)

Section MainFacts.

Variable images : gmap string string.

Lemma kept_parse (row : gmap string string) :
  (kept row = true -> exists c, parse_csv_row row = Ok (Some c)) /\
  (kept row = false -> parse_csv_row row = Ok None).
Proof.
  unfold kept. split; intros H.
  - apply andb_true_iff in H as [H1 H2]. apply truthy_true in H1, H2.
    apply parse_csv_row_record; assumption.
  - apply parse_csv_row_skip. apply andb_false_iff in H as [H | H];
      apply truthy_false in H; [now left | now right].
Qed.

Lemma main_step_kept (cards : list CardRecord) (row : gmap string string)
  (c : CardRecord) :
  parse_csv_row row = Ok (Some c) ->
  main_step images cards row = Ok (cards ++ [attach_image images c]).
Proof. intros E. unfold main_step. rewrite E. reflexivity. Qed.

Lemma main_step_skipped (cards : list CardRecord) (row : gmap string string) :
  parse_csv_row row = Ok None -> main_step images cards row = Ok cards.
Proof. intros E. unfold main_step. rewrite E. reflexivity. Qed.

Lemma main_loop_rows (rows : list (gmap string string))
  (cards : list CardRecord) :
  exists new,
    main_loop images rows cards = Ok (cards ++ new) /\
    Forall2 (fun row card =>
               exists c, parse_csv_row row = Ok (Some c) /\
                         card = attach_image images c)
            (List.filter kept rows) new.
Proof.
  revert cards. induction rows as [|row rows IH]; intros cards.
  - exists []. split; [simpl; rewrite app_nil_r; reflexivity | constructor].
  - simpl. destruct (kept row) eqn:K.
    + destruct (proj1 (kept_parse row) K) as (c & E).
      rewrite (main_step_kept _ _ _ E).
      destruct (IH (cards ++ [attach_image images c])) as (new & L & F).
      exists (attach_image images c :: new). split.
      * unfold mbind, result_bind, rbind. rewrite L, <- app_assoc. reflexivity.
      * constructor; [eauto | exact F].
    + rewrite (main_step_skipped _ _ (proj2 (kept_parse row) K)).
      destruct (IH cards) as (new & L & F). exists new. split; [exact L | exact F].
Qed.

Lemma main_loop_app (rows1 rows2 : list (gmap string string))
  (cards : list CardRecord) :
  main_loop images (rows1 ++ rows2) cards
  = rbind (main_loop images rows1 cards) (main_loop images rows2).
Proof.
  revert cards. induction rows1 as [|row rows1 IH]; intros cards;
    [reflexivity|].
  simpl. destruct (main_step images cards row) as [cards'|e]; simpl;
    [apply IH | reflexivity].
Qed.

Lemma main_loop_acc (rows : list (gmap string string))
  (cards new : list CardRecord) :
  main_loop images rows [] = Ok new ->
  main_loop images rows cards = Ok (cards ++ new).
Proof.
  intros H. destruct (main_loop_rows rows cards) as (n1 & E1 & F1).
  destruct (main_loop_rows rows []) as (n2 & E2 & F2).
  rewrite E2 in H. injection H as <-. rewrite E1. f_equal. f_equal.
  clear E1 E2. revert n2 F2. induction F1 as [|r c l1 l2 (c1 & P1 & ->) _ IH];
    intros n2 F2; inversion F2 as [|r' c' l1' l2' (c2 & P2 & ->) F2']; subst;
    [reflexivity|].
  rewrite P1 in P2. injection P2 as <-. f_equal. apply IH, F2'.
Qed.

End MainFacts.


(** X16: rows processed in two batches give the cards of the first
    batch followed by those of the second. *)
Theorem main_app (image_rows rows1 rows2 : list (gmap string string))
  (cards1 cards2 : list CardRecord) :
  main image_rows rows1 = Ok cards1 ->
  main image_rows rows2 = Ok cards2 ->
  main image_rows (rows1 ++ rows2) = Ok (cards1 ++ cards2).
Proof.
  unfold main. intros H1 H2. rewrite main_loop_app, H1. simpl.
  apply main_loop_acc, H2.
Qed.

Lemma main_app_witness :
  exists c1 c2,
    main image_rows_sample ([sample_row; nameless_row] ++ [nan_row])
      = Ok ([c1] ++ [c2]) /\
    id c1 = "OGN-001" /\ id c2 = "OGN-024".
Proof.
  do 2 eexists. split.
  - apply main_app; vm_compute; reflexivity.
  - split; reflexivity.
Defined.

(** ** The frequency tables *)

Section Tables.

Lemma count_step_lookup (table : gmap string nat) (k k' : string) :
  default 0 (count_step table k !! k')
  = default 0 (table !! k') + (if string_dec k k' then 1 else 0).
Proof.
  unfold count_step. rewrite lookup_insert.
  case_decide as D; destruct (string_dec k k') as [E | E]; try congruence.
  - simpl. subst k'. reflexivity.
  - lia.
Qed.

Lemma count_fold_lookup (keys : list string) (table : gmap string nat)
  (k : string) :
  default 0 (fold_left count_step keys table !! k)
  = default 0 (table !! k) + count_occ string_dec keys k.
Proof.
  revert table. induction keys as [|x keys IH]; intros table; simpl; [lia|].
  rewrite IH, count_step_lookup. destruct (string_dec x k); lia.
Qed.

Lemma count_fold_positive (keys : list string) (table : gmap string nat)
  (k : string) :
  (forall j n, table !! j = Some n -> 0 < n) ->
  forall n, fold_left count_step keys table !! k = Some n -> 0 < n.
Proof.
  revert table. induction keys as [|x keys IH]; intros table H; [apply H|].
  simpl. apply IH. intros j n. unfold count_step. rewrite lookup_insert.
  case_decide; [intros E; injection E as <-; lia | apply H].
Qed.

Lemma tables_fold (cards : list CardRecord)
  (domains types : gmap string nat) :
  fold_left tables_step cards (domains, types)
  = (fold_left count_step (List.map domain cards) domains,
     fold_left count_step (List.map primary_type cards) types).
Proof.
  revert domains types. induction cards as [|c cards IH]; intros domains types;
    [reflexivity|].
  simpl. apply IH.
Qed.

(** The first piece of a split on " - " when the text before the
    separator holds no '-'. *)
Lemma split_sep_first (ct rest cur : string) :
  lacks "-" ct = true ->
  rest = "" \/ (exists x, rest = " - " +:+ x) ->
  exists l,
    split_sep_go " - " 0 cur (ct +:+ rest) = (String.rev cur +:+ ct) :: l.
Proof.
  intros L R. revert cur. induction ct as [|c ct IH]; intros cur.
  - rewrite app_empty_l.
    assert (E : String.rev cur +:+ "" = String.rev cur).
    { generalize (String.rev cur). intros t.
      induction t as [|d t IHt]; [reflexivity|].
      rewrite app_cons, IHt. reflexivity. }
    rewrite E. destruct R as [-> | (x & ->)]; [simpl; eauto|].
    pose proof (startswith_app " - " x) as St.
    change (" - " +:+ x) with (String " " ("- " +:+ x)) in *.
    cbn [split_sep_go]. rewrite St. eauto.
  - unfold lacks in L. cbn [Spec.all_chars] in L.
    apply andb_true_iff in L as [Lc Lt].
    rewrite app_cons. cbn [split_sep_go].
    assert (S : Str.startswith (String c (ct +:+ rest)) " - " = false).
    { cbn [Str.startswith]. destruct (Ascii.eqb " " c); [|reflexivity]. simpl.
      destruct ct as [|d ct].
      - rewrite app_empty_l. destruct R as [-> | (x & ->)]; reflexivity.
      - rewrite app_cons. cbn [Spec.all_chars] in Lt.
        apply andb_true_iff in Lt as [Ld _].
        cbn [Str.startswith]. rewrite Ascii.eqb_sym.
        apply negb_true_iff in Ld. rewrite Ld. reflexivity. }
    rewrite S. destruct (IH Lt (String c cur)) as (l & ->).
    exists l. rewrite rev_snoc. reflexivity.
Qed.

End Tables.

(** X17: after the loop over the cards, the [domains] table gives for
    each domain the number of cards that have it, the [types] table
    the number of cards with that primary type, and neither holds a
    key with count 0: a value that no card has is not a key. *)
Theorem tables_count (cards : list CardRecord) (k : string) :
  default 0 ((tables cards).1 !! k)
    = count_occ string_dec (List.map domain cards) k /\
  default 0 ((tables cards).2 !! k)
    = count_occ string_dec (List.map primary_type cards) k /\
  ((tables cards).1 !! k = None <-> ~ In k (List.map domain cards)) /\
  ((tables cards).2 !! k = None <-> ~ In k (List.map primary_type cards)).
Proof.
  unfold tables. rewrite tables_fold. simpl.
  pose proof (count_fold_lookup (List.map domain cards) ∅ k) as D.
  pose proof (count_fold_lookup (List.map primary_type cards) ∅ k) as T.
  rewrite lookup_empty in D, T. simpl in D, T.
  split; [exact D|]. split; [exact T|].
  assert (P : forall keys : list string,
            default 0 (fold_left count_step keys ∅ !! k)
              = count_occ string_dec keys k ->
            fold_left count_step keys ∅ !! k = None <-> ~ In k keys).
  { intros keys E. rewrite (count_occ_not_In string_dec), <- E.
    destruct (fold_left count_step keys ∅ !! k) as [n|] eqn:L; simpl.
    - split; [discriminate|]. intros Z. subst n.
      apply (count_fold_positive keys ∅ k) in L; [lia|].
      intros j n. rewrite lookup_empty. discriminate.
    - split; reflexivity. }
  split; apply P; assumption.
Qed.

(** X18: when the primary type of a row holds no '-', the key under
    which [main] counts the record in the [types] table is that
    primary type, with or without subtypes. *)
Theorem primary_type_of_row (row : gmap string string) (card : CardRecord) :
  parse_csv_row row = Ok (Some card) ->
  lacks "-" (card_type_of row) = true ->
  primary_type card = card_type_of row.
Proof.
  intros H L. unfold primary_type, split_sep.
  destruct (parse_csv_row_more row card H) as (_ & _ & ->). cbv zeta.
  destruct (fold_left _ _ _) as [|x l].
  - destruct (split_sep_first (card_type_of row) "" "" L (or_introl eq_refl))
      as (l' & E).
    assert (Z : card_type_of row +:+ "" = card_type_of row).
    { generalize (card_type_of row). intros t.
      induction t as [|d t IHt]; [reflexivity|].
      rewrite app_cons, IHt. reflexivity. }
    rewrite Z in E. rewrite E. reflexivity.
  - destruct (split_sep_first (card_type_of row)
                (" - " +:+ Str.join ", " (x :: l)) "" L) as (l' & E);
      [right; eauto|].
    rewrite E. reflexivity.
Qed.

Lemma primary_type_of_row_witness :
  exists card,
    parse_csv_row tagged_row = Ok (Some card) /\ primary_type card = "unit".
Proof.
  eexists. split; [vm_compute; reflexivity|].
  erewrite (primary_type_of_row tagged_row); vm_compute; reflexivity.
Defined.

(** ** Numbered spans and bare names *)

Section NumberedSpans.

Lemma digit_not_space (c : ascii) :
  Char.is_digit c = true -> Char.is_space c = false.
Proof. destruct c as [[] [] [] [] [] [] [] []]; intros H; try reflexivity; discriminate H. Qed.

Lemma span_app (p : ascii -> bool) (a b : string) :
  Spec.all_chars p a = true ->
  (b = "" \/ exists c r, b = String c r /\ p c = false) ->
  Str.span p (a +:+ b) = (a, b).
Proof.
  intros A B. induction a as [|c a IH].
  - rewrite app_empty_l. destruct B as [-> | (c & r & -> & E)]; simpl;
      [reflexivity | rewrite E; reflexivity].
  - cbn [Spec.all_chars] in A. apply andb_true_iff in A as [Ac Aa].
    rewrite app_cons. cbn [Str.span]. rewrite Ac, (IH Aa). reflexivity.
Qed.

Lemma match_num_close_numbered (ws ds post : string) :
  ws <> "" -> Spec.all_chars Char.is_space ws = true ->
  ds <> "" -> Spec.all_chars Char.is_digit ds = true ->
  Re.match_num_close (ws +:+ ds +:+ "]" +:+ post) = true.
Proof.
  intros Nw Aw Nd Ad. unfold Re.match_num_close.
  assert (S1 : Str.span Char.is_space (ws +:+ ds +:+ "]" +:+ post)
               = (ws, ds +:+ "]" +:+ post)).
  { apply span_app; [exact Aw|]. right.
    destruct ds as [|d ds]; [congruence|]. exists d, (ds +:+ "]" +:+ post).
    split; [reflexivity|]. cbn [Spec.all_chars] in Ad.
    apply andb_true_iff in Ad as [Ad _]. apply digit_not_space, Ad. }
  assert (S2 : Str.span Char.is_digit (ds +:+ "]" +:+ post)
               = (ds, "]" +:+ post)).
  { apply span_app; [exact Ad|]. right. exists "]"%char, post.
    split; reflexivity. }
  rewrite S1, S2. apply truthy_true in Nw, Nd. rewrite Nw, Nd.
  rewrite (startswith_app "]" post). apply orb_true_r.
Qed.

Lemma known_keywords_plain :
  forall k, In k known_keywords -> Re.sub_num_suffix k = k.
Proof.
  assert (H : forallb (fun k => String.eqb (Re.sub_num_suffix k) k)
                      known_keywords = true) by (vm_compute; reflexivity).
  rewrite forallb_forall in H. intros k I. apply String.eqb_eq, H, I.
Qed.

End NumberedSpans.

(** X19: a bracketed known name followed by a number, as in
    "[Assault 2]", in any letter case, puts the bare canonical name in
    the result exactly once, next to whatever the bracket scan kept
    of the numbered text. *)
Theorem numbered_span_yields_bare_name
  (text K k' ws ds pre post : string) :
  In K known_keywords ->
  Str.lower k' = Str.lower K ->
  ws <> "" -> Spec.all_chars Char.is_space ws = true ->
  ds <> "" -> Spec.all_chars Char.is_digit ds = true ->
  text = pre +:+ "[" +:+ k' +:+ ws +:+ ds +:+ "]" +:+ post ->
  count_occ string_dec (extract_keywords text) K = 1.
Proof.
  intros HK E Nw Aw Nd Ad ->.
  set (text := pre +:+ "[" +:+ k' +:+ ws +:+ ds +:+ "]" +:+ post).
  assert (U : at_most_once K (extract_keywords text)).
  { apply known_loop_once, bracket_loop_once;
      [apply known_keywords_plain, HK|].
    unfold at_most_once. simpl. lia. }
  assert (I : In K (extract_keywords text)).
  { apply known_loop_In; [exact HK | |].
    - apply (contains_lower_variant K k' pre "["
               (ws +:+ ds +:+ "]" +:+ post) E).
    - apply search_keyword_app. rewrite app_cons, app_empty_l.
      unfold Re.match_keyword_here.
      rewrite (imatch_lit_variant _ _ _ E),
        (match_num_close_numbered ws ds post Nw Aw Nd Ad).
      reflexivity. }
  apply (count_occ_In string_dec) in I. unfold at_most_once in U. lia.
Qed.

Lemma numbered_span_yields_bare_name_witness :
  count_occ string_dec (extract_keywords "Gain [Assault 2] now.") "Assault" = 1.
Proof.
  apply (numbered_span_yields_bare_name
           "Gain [Assault 2] now." "Assault" "Assault" " " "2" "Gain " " now.");
    try reflexivity; try discriminate.
  vm_compute. tauto.
Defined.
